(** * NtpSpy: a shallow embedding of the UDP time-request sensor

    The repository holds three revisions of one Go program ([package main]):
    - [src/main.go]: the listener answers every non-empty datagram, the
      dispatcher embeds the raw message text in the URL;
    - [src/unnamed/part_001], first file: the listener validates size and
      mode, the dispatcher still embeds the raw text;
    - [src/unnamed/part_001], second file: validation, geolocation lookup
      ([getGeoIP]) and [url.QueryEscape] in the dispatcher.
    [makeNTPResponse] is the same function, line for line, in all three.

    Bytes and machine integers are integers of [Z] with the wrap-around of
    the Go conversions written out; Go strings are [string] (byte strings). *)

From Stdlib Require Import ZArith Lia String Ascii List Bool.
From stdpp Require Import base tactics option list.
Import ListNotations.

#[local] Open Scope Z_scope.

(** ** Machine integers *)

Module GoInt.

(** [uint32(x)]: the low 32 bits. *)
Definition uint32 (x : Z) : Z := x mod 2 ^ 32.

(** [int64] arithmetic wraps in two's complement. *)
Definition int64 (x : Z) : Z := (x + 2 ^ 63) mod 2 ^ 64 - 2 ^ 63.

(** [byte(x)]: the low 8 bits. *)
Definition byte (x : Z) : Z := x mod 256.

(** A value of Go type [byte]. *)
Definition is_byte (b : Z) : Prop := 0 <= b < 256.

(** Big-endian reading of a 4-byte slice, as a client decodes the field. *)
Definition from_be32 (bs : list Z) : Z :=
  match bs with
  | [b0; b1; b2; b3] => b0 * 2 ^ 24 + b1 * 2 ^ 16 + b2 * 2 ^ 8 + b3
  | _ => -1
  end.

End GoInt.

(** ** Response codec: [makeNTPResponse] *)

Module Codec.
Import GoInt.

(** What [time.Now().UTC()] yields, as far as the codec reads it:
    [now.Unix()] (an [int64]) and [now.Nanosecond()] (an [int]). *)
Record Time := { Unix : Z; Nanosecond : Z }.

(** The range the [time] package documents for [Nanosecond()] and the
    [int64] range of [Unix()]. *)
Definition valid_time (now : Time) : Prop :=
  - 2 ^ 63 <= Unix now < 2 ^ 63 /\ 0 <= Nanosecond now <= 999999999.

(** [seconds := uint32(now.Unix() + 2208988800)] *)
Definition seconds (now : Time) : Z := uint32 (int64 (Unix now + 2208988800)).

(** [fraction := uint32(now.Nanosecond() / 1000)]; Go's [/] truncates. *)
Definition fraction (now : Time) : Z := uint32 (Nanosecond now ÷ 1000).

(** [makeNTPResponse], with the clock reading made an argument. *)
Definition makeNTPResponse (now : Time) : list Z :=
  let response := replicate 48 0 in
  let response := <[0%nat := 0x1c]> response in
  let seconds := seconds now in
  let fraction := fraction now in
  let response := <[40%nat := byte (seconds ≫ 24)]> response in
  let response := <[41%nat := byte (seconds ≫ 16)]> response in
  let response := <[42%nat := byte (seconds ≫ 8)]> response in
  let response := <[43%nat := byte seconds]> response in
  let response := <[44%nat := byte (fraction ≫ 24)]> response in
  let response := <[45%nat := byte (fraction ≫ 16)]> response in
  let response := <[46%nat := byte (fraction ≫ 8)]> response in
  let response := <[47%nat := byte fraction]> response in
  response.

(** The two timestamp fields as a receiver reads them. *)
Definition seconds_field (response : list Z) : Z :=
  from_be32 (take 4 (drop 40 response)).

Definition fraction_field (response : list Z) : Z :=
  from_be32 (take 4 (drop 44 response)).

End Codec.

(** ** Strings: [fmt.Sprintf] with [%s] verbs, [url.QueryEscape] *)

Module Str.
#[local] Open Scope string_scope.

(** [fmt.Sprintf] for format strings whose only verb is [%s], the one use
    the program makes of it.  A verb without an operand prints as Go does. *)
Fixpoint Sprintf (format : string) (args : list string) : string :=
  match format with
  | String "%" (String "s" rest) =>
      match args with
      | a :: args' => a ++ Sprintf rest args'
      | [] => "%!s(MISSING)" ++ Sprintf rest []
      end
  | String c rest => String c (Sprintf rest args)
  | EmptyString => EmptyString
  end.

(** [sub] occurs in [s]. *)
Definition contains (s sub : string) : Prop :=
  exists pre post, s = pre ++ sub ++ post.

Fixpoint chars (s : string) : list ascii :=
  match s with
  | EmptyString => []
  | String c rest => c :: chars rest
  end.

Definition byte_in (c : ascii) (set : string) : bool :=
  existsb (Ascii.eqb c) (chars set).

(** Unreserved characters (alphanum), first test of [shouldEscape]. *)
Definition alnum (c : ascii) : bool :=
  let n := N_of_ascii c in
  ((97 <=? n) && (n <=? 122) || (65 <=? n) && (n <=? 90)
   || (48 <=? n) && (n <=? 57))%N.

(** [shouldEscape(c, encodeQueryComponent)] of package [net/url]. *)
Definition shouldEscape (c : ascii) : bool :=
  if alnum c then false
  else if byte_in c "-_.~" then false
  else if byte_in c "$&+,/:;=?@" then true
  else true.

(** [upperhex[i]] *)
Definition upperhex (i : N) : ascii :=
  match get (N.to_nat i) "0123456789ABCDEF" with
  | Some h => h
  | None => "0"%char
  end.

(** [url.QueryEscape(s)], that is [escape(s, encodeQueryComponent)]. *)
Fixpoint QueryEscape (s : string) : string :=
  match s with
  | EmptyString => EmptyString
  | String c rest =>
      if Ascii.eqb c " " then String "+" (QueryEscape rest)
      else if shouldEscape c then
        let n := N_of_ascii c in
        String "%" (String (upperhex (N.shiftr n 4))
                      (String (upperhex (N.land n 15)) (QueryEscape rest)))
      else String c (QueryEscape rest)
  end.

(** Value of a hexadecimal digit ([unhex]). *)
Definition unhex (c : ascii) : option N :=
  let n := N_of_ascii c in
  (if (48 <=? n) && (n <=? 57) then Some (n - 48)
   else if (97 <=? n) && (n <=? 102) then Some (n - 97 + 10)
   else if (65 <=? n) && (n <=? 70) then Some (n - 65 + 10)
   else None)%N.

(** How the receiving side reads a query component back
    ([url.QueryUnescape]): [+] is a space, [%XX] a byte. *)
Fixpoint QueryUnescape (s : string) : option string :=
  match s with
  | EmptyString => Some EmptyString
  | String "%" (String h (String l rest)) =>
      match unhex h, unhex l, QueryUnescape rest with
      | Some a, Some b, Some r => Some (String (ascii_of_N (16 * a + b)) r)
      | _, _, _ => None
      end
  | String "%" _ => None
  | String "+" rest => option_map (String " ") (QueryUnescape rest)
  | String c rest => option_map (String c) (QueryUnescape rest)
  end.

(** Bytes that can stand in a query component without ending it or
    starting another: unreserved characters, [%] and [+]. *)
Definition component_byte (c : ascii) : bool :=
  alnum c || byte_in c "-_.~" || byte_in c "%+".

End Str.

(** ** The network, as the program sees it *)

Module Net.

(** A [*net.UDPAddr], by the two renderings the program takes of it. *)
Record UDPAddr := {
  IP_String : string;     (* clientAddr.IP.String() *)
  Addr_String : string    (* clientAddr.String() *)
}.

(** What one call of [conn.ReadFromUDP(buf)] does: it fails, or it copies
    [payload] into [buf] and reports [len payload] and the sender.  The
    read copies at most [len(buf)] bytes. *)
Inductive ReadResult :=
| ReadErr
| ReadOk (payload : list Z) (from : UDPAddr).

(** What one call of [http.Get(url)] does: a transport error, or a
    response with a status code and a body. *)
Inductive HttpResult :=
| HttpErr
| HttpResp (StatusCode : Z) (Body : string).

Definition StatusOK : Z := 200.

End Net.

(** ** The bounded channel [msgChan] *)

Module Chan.

(** A buffered [chan string]: its capacity and the messages buffered,
    oldest first. *)
Record chan := { cap : nat; buf : list string }.

(** [make(chan string, n)] *)
Definition make (n : nat) : chan := {| cap := n; buf := [] |}.

(** A send [ch <- msg] can proceed when the buffer has room; otherwise the
    sender would block ([None]). *)
Definition send (ch : chan) (msg : string) : option chan :=
  if (length (buf ch) <? cap ch)%nat
  then Some {| cap := cap ch; buf := buf ch ++ [msg] |}
  else None.

(** A receive [<-ch] can proceed when a message is buffered. *)
Definition recv (ch : chan) : option (string * chan) :=
  match buf ch with
  | [] => None
  | m :: rest => Some (m, {| cap := cap ch; buf := rest |})
  end.

(** [select { case ch <- msg: ... default: ... }]: the send if it can
    proceed, the [default] branch otherwise; [true] reports the send. *)
Definition offer (ch : chan) (msg : string) : chan * bool :=
  match send ch msg with
  | Some ch' => (ch', true)
  | None => (ch, false)
  end.





End Chan.

(** ** The world the two loops act on *)

Module Sys.
Import Net.

(** A pool item: the slice header it designates and the backing array of
    that header (both by allocation number). *)
Record Item := { item_hdr : nat; item_arr : nat }.

Inductive Level := Info | Warn.

(** Observable actions. *)
Inductive Event :=
| EvPoolGet (it : Item)
| EvPoolPut (it : Item)
| EvWriteToUDP (payload : list Z) (to : UDPAddr)
| EvHttpGet (url : string)
| EvLog (lvl : Level) (msg : string)
| EvEnqueue (msg : string)
| EvClose.

Record World := {
  heap : list (list Z);     (* backing arrays, by allocation number *)
  hdrs : nat;               (* slice headers allocated so far *)
  pool : list Item;         (* what [bufPool] holds *)
  msgChan : Chan.chan       (* the queue shared by the two loops *)
}.

(** [msgChan := make(chan string, 100)] in [main]; the pool starts empty. *)
Definition init : World :=
  {| heap := []; hdrs := 0; pool := []; msgChan := Chan.make 100 |}.

(** State passing with a log of the actions performed. *)
Definition M (A : Type) : Type := World -> A * World * list Event.

#[export] Instance M_ret : MRet M := fun A a w => (a, w, []).
#[export] Instance M_bind : MBind M := fun A B f m w =>
  let '(a, w1, e1) := m w in
  let '(b, w2, e2) := f a w1 in
  (b, w2, e1 ++ e2).

Definition emit (e : Event) : M unit := fun w => (tt, w, [e]).
Definition skip : M unit := mret tt.

Definition world_of {A} (r : A * World * list Event) : World := snd (fst r).
Definition events_of {A} (r : A * World * list Event) : list Event := snd r.
Definition value_of {A} (r : A * World * list Event) : A := fst (fst r).

(** *** Allocation *)

(** [make([]byte, 48)]: a new zeroed backing array. *)
Definition make_bytes : M nat := fun w =>
  (length (heap w),
   {| heap := heap w ++ [replicate 48 0%Z]; hdrs := hdrs w;
      pool := pool w; msgChan := msgChan w |}, []).

(** A new slice header (a slice variable whose address is taken, or the
    box of a slice stored in an [interface{}]). *)
Definition new_hdr : M nat := fun w =>
  (hdrs w,
   {| heap := heap w; hdrs := S (hdrs w);
      pool := pool w; msgChan := msgChan w |}, []).

Definition load (arr i : nat) : M Z := fun w =>
  (default 0%Z (heap w !! arr ≫= fun b => b !! i), w, []).

Definition set_pool (p : list Item) : M unit := fun w =>
  (tt, {| heap := heap w; hdrs := hdrs w; pool := p; msgChan := msgChan w |}, []).

Definition get_pool : M (list Item) := fun w => (pool w, w, []).

(** *** [sync.Pool] *)

(** What the runtime decides at one [Get]: whether the pool was emptied
    by a collection since the last call, and which stored item it hands
    out ([None], or an index past the end: it calls [New]). *)
Record PoolChoice := { gc : bool; pick : option nat }.

(** The pool as [Get] finds it, and the choice resolved against it. *)
Definition found (c : PoolChoice) (p : list Item) : list Item :=
  if gc c then [] else p.

Definition hit (c : PoolChoice) (p : list Item) : option (nat * Item) :=
  pick c ≫= fun i => (fun it => (i, it)) <$> p !! i.

(** [bufPool.Get()], with the pool's [New] as a parameter. *)
Definition Get (c : PoolChoice) (New : M Item) : M Item :=
  p ← get_pool;
  let p := found c p in
  match hit c p with
  | Some (i, it) => set_pool (delete i p) ;; emit (EvPoolGet it) ;; mret it
  | None => set_pool p ;; it ← New; emit (EvPoolGet it) ;; mret it
  end.

(** [bufPool.Put(x)] *)
Definition Put (it : Item) : M unit :=
  p ← get_pool; set_pool (it :: p) ;; emit (EvPoolPut it).

(** [New: func() interface{} { return make([]byte, 48) }] (main.go) and
    [New: func() interface{} { b := make([]byte, 48); return &b }]
    (part_001): a new array under a new header. *)
Definition New : M Item :=
  a ← make_bytes; h ← new_hdr; mret {| item_hdr := h; item_arr := a |}.

(** *** Socket, clock, log, queue *)

(** [n, clientAddr, err := conn.ReadFromUDP(buf)]: on success the payload
    is copied to the front of the array; [None] stands for [err != nil]. *)
Definition ReadFromUDP (r : ReadResult) (arr : nat) : M (option (nat * UDPAddr)) :=
  match r with
  | ReadErr => mret None
  | ReadOk payload from => fun w =>
      (Some (length payload, from),
       {| heap := alter (fun old => take 48 (payload ++ drop (length payload) old))
                    arr (heap w);
          hdrs := hdrs w; pool := pool w; msgChan := msgChan w |}, [])
  end.

(** [_, err = conn.WriteToUDP(response, clientAddr)]; the result says
    whether [err == nil], which the network decides. *)
Definition WriteToUDP (ok : bool) (response : list Z) (to : UDPAddr) : M bool :=
  emit (EvWriteToUDP response to) ;; mret ok.

(** [resp, err := http.Get(url)]; the outside decides the outcome. *)
Definition http_Get (r : HttpResult) (url : string) : M HttpResult :=
  emit (EvHttpGet url) ;; mret r.

(** [case msg := <-msgChan], when a message is buffered. *)
Definition recv_msg : M (option string) := fun w =>
  match Chan.recv (msgChan w) with
  | Some (msg, ch) =>
      (Some msg,
       {| heap := heap w; hdrs := hdrs w; pool := pool w; msgChan := ch |}, [])
  | None => (None, w, [])
  end.

(** The logger; the structured fields of an entry are left out. *)
Definition logger_Info (msg : string) : M unit := emit (EvLog Info msg).
Definition logger_Warn (msg : string) : M unit := emit (EvLog Warn msg).

(** [select { case msgChan <- msg: default: logger.Warn(...) }] *)
Definition offer_msg (msg : string) : M unit := fun w =>
  let '(ch, sent) := Chan.offer (msgChan w) msg in
  ((), {| heap := heap w; hdrs := hdrs w; pool := pool w; msgChan := ch |},
   if sent then [EvEnqueue msg]
   else [EvLog Warn "Очередь сообщений переполнена, сообщение отброшено"]).

(** The states of a loop. *)
Inductive Phase := RUNNING | STOPPING | STOPPED.

(** A [for] loop against a script of answers, one per turn.  A turn
    either goes round ([RUNNING]) or reaches [return] ([STOPPING]); then
    the deferred calls run and the function has returned ([STOPPED]).
    At the end of the script the loop is where it stands. *)
Fixpoint for_loop {E} (turn : E -> M Phase) (deferred : M unit)
    (script : list E) : M Phase :=
  match script with
  | [] => mret RUNNING
  | e :: rest =>
      ph ← turn e;
      match ph with
      | RUNNING => for_loop turn deferred rest
      | _ => deferred ;; mret STOPPED
      end
  end.

(** What the outside answers during one turn of the listener's loop. *)
Record ListenerEnv := {
  ctx_done : bool;          (* [<-ctx.Done()] is ready at the [select] *)
  pool_choice : PoolChoice;
  read : ReadResult;
  now : Codec.Time;         (* [time.Now()] in [makeNTPResponse] *)
  write_ok : bool;
  geo_http : HttpResult     (* [http.Get] in [getGeoIP] *)
}.

(** What the outside answers during one turn of the dispatcher's loop:
    which ready case the [select] takes, and the answer of the
    messaging API. *)
Record DispatcherEnv := {
  take_done : bool;         (* the [select] takes [<-ctx.Done()] *)
  api_http : HttpResult
}.

End Sys.

(** ** src/main.go *)

Module MainGo.
Import Net Sys Codec Str.

(** [bufPool.Put(buf)] with [buf] a [[]byte]: the slice is boxed in an
    interface value, a new header over the same array. *)
Definition Put_slice (arr : nat) : M unit :=
  h ← new_hdr; Put {| item_hdr := h; item_arr := arr |}.

(** The [default] branch of the listener's [select]: one receive. *)
Definition receive (e : ListenerEnv) : M unit :=
  it ← Get (pool_choice e) New;
  let buf := item_arr it in
  r ← ReadFromUDP (read e) buf;
  match r with
  | None =>
      logger_Warn "Ошибка чтения UDP" ;;
      Put_slice buf
  | Some (n, clientAddr) =>
      let response := makeNTPResponse (now e) in
      (if (0 <? n)%nat then
         ok ← WriteToUDP (write_ok e) response clientAddr;
         if ok : bool then skip
         else logger_Warn "Ошибка отправки ответа клиенту"
       else skip) ;;
      let msg := Sprintf "Синхронизация NTP с клиентом: %s"
                   [Addr_String clientAddr] in
      offer_msg msg ;;
      Put_slice buf
  end.

(** One turn of the [for] loop of [startNTPServer]. *)
Definition startNTPServer_turn (e : ListenerEnv) : M Phase :=
  if ctx_done e then
    logger_Info "Остановка NTP сервера" ;; mret STOPPING
  else receive e ;; mret RUNNING.

(** [startNTPServer] from its loop on; [defer conn.Close()]. *)
Definition startNTPServer : list ListenerEnv -> M Phase :=
  for_loop startNTPServer_turn (emit EvClose).

(** The URL the dispatcher requests for a message. *)
Definition sendMessage_url (token chatID msg : string) : string :=
  Sprintf "https://api.telegram.org/bot%s/sendMessage?chat_id=%s&text=%s"
    [token; chatID; msg].

(** One turn of the [for] loop of [processTelegramMessages]; with nothing
    ready the [select] waits. *)
Definition processTelegramMessages_turn (token chatID : string)
    (e : DispatcherEnv) : M Phase :=
  if take_done e then
    logger_Info "Остановка обработки сообщений Telegram" ;; mret STOPPING
  else
    m ← recv_msg;
    match m with
    | None => mret RUNNING
    | Some msg =>
        let url := sendMessage_url token chatID msg in
        resp ← http_Get (api_http e) url;
        match resp with
        | HttpErr =>
            logger_Warn "Ошибка отправки сообщения в Telegram" ;; mret RUNNING
        | HttpResp StatusCode _ =>
            (if (StatusCode =? StatusOK)%Z then skip
             else logger_Warn "Telegram API вернул ошибку") ;;
            mret RUNNING
        end
    end.

Definition processTelegramMessages (token chatID : string)
    : list DispatcherEnv -> M Phase :=
  for_loop (processTelegramMessages_turn token chatID) skip.

End MainGo.

(** ** src/unnamed/part_001, first file: size and mode are checked *)

Module Part001a.
Import Net Sys Codec Str.

(** [buf := *p] for the pointer [p] that [bufPool.Get()] hands out: the
    variable [buf] is a new header over the array of the item; [&buf] is
    what goes back. *)
Definition Get_buf (c : PoolChoice) : M Item :=
  p ← Get c New;
  h ← new_hdr;
  mret {| item_hdr := h; item_arr := item_arr p |}.

(** The answer to a valid request and the alert for it. *)
Definition serve (e : ListenerEnv) (clientAddr : UDPAddr) : M unit :=
  let response := makeNTPResponse (now e) in
  ok ← WriteToUDP (write_ok e) response clientAddr;
  (if ok : bool then skip
   else logger_Warn "Ошибка отправки ответа клиенту") ;;
  let msg := Sprintf "Синхронизация NTP с клиентом: %s"
               [Addr_String clientAddr] in
  offer_msg msg.

(** The [default] branch of the listener's [select], with the code for a
    valid request as a parameter (the two files of part_001 differ in it
    only). *)
Definition receive_with (serve : ListenerEnv -> UDPAddr -> M unit)
    (e : ListenerEnv) : M unit :=
  buf ← Get_buf (pool_choice e);
  r ← ReadFromUDP (read e) (item_arr buf);
  match r with
  | None =>
      logger_Warn "Ошибка чтения UDP" ;;
      Put buf
  | Some (n, clientAddr) =>
      (if (n =? 48)%nat then
         b0 ← load (item_arr buf) 0;
         let mode := Z.land b0 0x07 in
         if (mode =? 3)%Z then serve e clientAddr
         else logger_Info "Получен некорректный NTP-запрос"
       else logger_Info "Получен пакет с некорректным размером") ;;
      Put buf
  end.

Definition turn_with (serve : ListenerEnv -> UDPAddr -> M unit)
    (e : ListenerEnv) : M Phase :=
  if ctx_done e then
    logger_Info "Остановка NTP сервера" ;; mret STOPPING
  else receive_with serve e ;; mret RUNNING.

Definition loop_with (serve : ListenerEnv -> UDPAddr -> M unit)
    : list ListenerEnv -> M Phase :=
  for_loop (turn_with serve) (emit EvClose).

Definition receive := receive_with serve.
Definition startNTPServer_turn := turn_with serve.
Definition startNTPServer := loop_with serve.

(** The dispatcher is the one of main.go, word for word. *)
Definition processTelegramMessages_turn := MainGo.processTelegramMessages_turn.
Definition processTelegramMessages := MainGo.processTelegramMessages.

End Part001a.

(** ** src/unnamed/part_001, second file: geolocation and URL escaping *)

Module Part001b.
Import Net Sys Codec Str.

Record GeoIP := { Country : string; City : string; ASN : string; ISP : string }.

(** The three ways [getGeoIP] returns a non-nil error. *)
Inductive GeoError :=
| ErrTransport                (* [http.Get] failed *)
| ErrStatus (StatusCode : Z)  (* [fmt.Errorf("API вернул ошибку: %s", resp.Status)] *)
| ErrDecode.                  (* [Decode] failed *)

Section Listener.

(** [json.NewDecoder(resp.Body).Decode(&geo)]: what it leaves in [geo]
    and whether it succeeded. *)
Variable Decode : string -> GeoIP * bool.

Definition geo_zero : GeoIP :=
  {| Country := EmptyString; City := EmptyString;
     ASN := EmptyString; ISP := EmptyString |}.

Definition geo_url (ip : string) : string :=
  Sprintf "http://ip-api.com/json/%s?fields=country,city,as,isp" [ip].

(** [getGeoIP(ip)]; the second component is the [error] ([None]: nil). *)
Definition getGeoIP (http : HttpResult) (ip : string) : M (GeoIP * option GeoError) :=
  let geo := geo_zero in
  let url := geo_url ip in
  resp ← http_Get http url;
  match resp with
  | HttpErr => mret (geo, Some ErrTransport)
  | HttpResp StatusCode Body =>
      if negb (StatusCode =? StatusOK)%Z then mret (geo, Some (ErrStatus StatusCode))
      else
        let '(geo, ok) := Decode Body in
        if ok then mret (geo, None) else mret (geo, Some ErrDecode)
  end.

(** The alert text without and with enrichment. *)
Definition msg_unknown (ip : string) : string :=
  Sprintf "Синхронизация NTP с клиентом: %s (геолокация не определена)" [ip].

Definition msg_located (ip : string) (geo : GeoIP) : string :=
  Sprintf "Синхронизация NTP с клиентом: %s
Страна: %s
Город: %s
ASN: %s
Провайдер: %s" [ip; Country geo; City geo; ASN geo; ISP geo].

Definition serve (e : ListenerEnv) (clientAddr : UDPAddr) : M unit :=
  let response := makeNTPResponse (now e) in
  ok ← WriteToUDP (write_ok e) response clientAddr;
  (if ok : bool then skip
   else logger_Warn "Ошибка отправки ответа клиенту") ;;
  let ip := IP_String clientAddr in
  '(geo, err) ← getGeoIP (geo_http e) ip;
  msg ← match err with
        | Some _ =>
            logger_Warn "Ошибка получения геолокационных данных" ;;
            mret (msg_unknown ip)
        | None => mret (msg_located ip geo)
        end;
  offer_msg msg.

Definition receive := Part001a.receive_with serve.
Definition startNTPServer_turn := Part001a.turn_with serve.
Definition startNTPServer := Part001a.loop_with serve.

End Listener.

Definition sendMessage_url (token chatID msg : string) : string :=
  let text := QueryEscape msg in
  Sprintf "https://api.telegram.org/bot%s/sendMessage?chat_id=%s&text=%s"
    [token; chatID; text].

Definition processTelegramMessages_turn (token chatID : string)
    (e : DispatcherEnv) : M Phase :=
  if take_done e then
    logger_Info "Остановка обработки сообщений Telegram" ;; mret STOPPING
  else
    m ← recv_msg;
    match m with
    | None => mret RUNNING
    | Some msg =>
        let urlStr := sendMessage_url token chatID msg in
        resp ← http_Get (api_http e) urlStr;
        match resp with
        | HttpErr =>
            logger_Warn "Ошибка отправки сообщения в Telegram" ;; mret RUNNING
        | HttpResp StatusCode _ =>
            (if (StatusCode =? StatusOK)%Z then skip
             else logger_Warn "Telegram API вернул ошибку") ;;
            mret RUNNING
        end
    end.

Definition processTelegramMessages (token chatID : string)
    : list DispatcherEnv -> M Phase :=
  for_loop (processTelegramMessages_turn token chatID) skip.

End Part001b.

(** ** Reading a log of actions *)

Module Obs.
Import Net Sys.

(** The datagrams written to the socket, in order. *)
Definition replies (evs : list Event) : list (list Z * UDPAddr) :=
  omap (fun ev => match ev with
                  | EvWriteToUDP payload to => Some (payload, to)
                  | _ => None
                  end) evs.

(** The messages that entered the queue, in order. *)
Definition enqueued (evs : list Event) : list string :=
  omap (fun ev => match ev with EvEnqueue msg => Some msg | _ => None end) evs.

(** The URLs requested over HTTP, in order. *)
Definition requested (evs : list Event) : list string :=
  omap (fun ev => match ev with EvHttpGet url => Some url | _ => None end) evs.

(** The arrays checked out of the pool and the arrays given back. *)
Definition checked_out (evs : list Event) : list nat :=
  omap (fun ev => match ev with EvPoolGet it => Some (item_arr it) | _ => None end) evs.

Definition given_back (evs : list Event) : list nat :=
  omap (fun ev => match ev with EvPoolPut it => Some (item_arr it) | _ => None end) evs.

(** [buf[0] & 0x07] of a payload. *)
Definition mode_of (payload : list Z) : Z :=
  Z.land (default 0%Z (payload !! 0%nat)) 0x07.

(** A read that delivers a request: 48 bytes, mode 3. *)
Definition well_formed (r : ReadResult) : bool :=
  match r with
  | ReadOk payload _ => (length payload =? 48)%nat && (mode_of payload =? 3)%Z
  | ReadErr => false
  end.

(** The pool holds allocated arrays, each one once. *)
Definition pool_ok (w : World) : Prop :=
  NoDup (item_arr <$> pool w)
  /\ Forall (fun it => (item_arr it < length (heap w))%nat) (pool w).

(** The discipline of one receive on the pool, from the world [w] before
    it and its outcome [r]: one array [a] is checked out and the same
    array is given back; while it is out the pool ([rest]) does not hold
    it; the pool stays in order; a hit hands out the array of the stored
    item and allocates nothing, a miss allocates the array. *)
Definition borrows (c : PoolChoice) (w : World) (r : unit * World * list Event) : Prop :=
  exists a it rest,
    checked_out (events_of r) = [a] /\ given_back (events_of r) = [a]
    /\ pool (world_of r) = it :: rest /\ item_arr it = a
    /\ (a ∉ item_arr <$> rest) /\ sublist rest (pool w)
    /\ pool_ok (world_of r)
    /\ match hit c (found c (pool w)) with
       | Some (_, stored) =>
           a = item_arr stored /\ stored ∈ pool w
           /\ length (heap (world_of r)) = length (heap w)
       | None =>
           a = length (heap w)
           /\ length (heap (world_of r)) = S (length (heap w))
       end.

(** Code that leaves the arrays and the pool alone. *)
Definition pool_frame (m : M unit) : Prop :=
  forall w,
    heap (world_of (m w)) = heap w /\ pool (world_of (m w)) = pool w
    /\ checked_out (events_of (m w)) = [] /\ given_back (events_of (m w)) = [].

(** The messages waiting in the queue. *)
Definition queued (w : World) : list string := Chan.buf (msgChan w).

(** The outcome of a lookup ([getGeoIP] does not read the world) and the
    alert the second file of part_001 composes from it. *)
Definition lookup_outcome Decode (http : HttpResult) (ip : string) :=
  value_of (Part001b.getGeoIP Decode http ip init).

Definition alert Decode (e : ListenerEnv) (from : UDPAddr) : string :=
  let ip := IP_String from in
  let g := lookup_outcome Decode (geo_http e) ip in
  match snd g with
  | Some _ => Part001b.msg_unknown ip
  | None => Part001b.msg_located ip (fst g)
  end.

(** The alert of main.go and of the first file of part_001. *)
Definition plain_alert (from : UDPAddr) : string :=
  Str.Sprintf "Синхронизация NTP с клиентом: %s" [Addr_String from].

(** The turns a loop runs: those before the first one that stops it. *)
Fixpoint until {E} (stop : E -> bool) (script : list E) : list E :=
  match script with
  | [] => []
  | e :: rest => if stop e then [] else e :: until stop rest
  end.



(** What the dispatcher logs for an answer of the messaging API. *)
Definition delivery_log (http : HttpResult) : list Event :=
  match http with
  | HttpErr => [EvLog Warn "Ошибка отправки сообщения в Telegram"]
  | HttpResp StatusCode _ =>
      if (StatusCode =? StatusOK)%Z then []
      else [EvLog Warn "Telegram API вернул ошибку"]
  end.

(** One turn of a dispatcher, for the URL it builds. *)
Definition turn_outcome (url : string -> string) (e : DispatcherEnv) (w : World)
    : Phase * World * list Event :=
  if take_done e then
    (STOPPING, w, [EvLog Info "Остановка обработки сообщений Telegram"])
  else
    match Chan.recv (msgChan w) with
    | None => (RUNNING, w, [])
    | Some (msg, ch) =>
        (RUNNING,
         {| heap := heap w; hdrs := hdrs w; pool := pool w; msgChan := ch |},
         EvHttpGet (url msg) :: delivery_log (api_http e))
    end.

(** The fixed part of the request URL, up to the message text. *)
Definition sendMessage_base (token chatID : string) : string :=
  ("https://api.telegram.org/bot" ++ token ++ "/sendMessage?chat_id="
     ++ chatID ++ "&text=")%string.

(** The text that marks an alert without location. *)
Definition unknown_location : string := "(геолокация не определена)".

End Obs.

(** ** Sample inputs *)

Module Sample.
Import Net Sys Codec.

Definition client : UDPAddr :=
  {| IP_String := "192.0.2.7"; Addr_String := "192.0.2.7:40123" |}.

(** 48 bytes, byte 0 = 0x1B: version 3, mode 3. *)
Definition request : list Z := 0x1b :: replicate 47 0%Z.

(** A datagram of 10 bytes. *)
Definition short : list Z := replicate 10 0%Z.

(** 48 bytes, byte 0 = 0x1C: mode 4. *)
Definition server_mode : list Z := 0x1c :: replicate 47 0%Z.

(** 2026-10-31 00:00:00.123456789 UTC. *)
Definition clock : Time := {| Unix := 1793404800; Nanosecond := 123456789 |}.

(** A turn of the listener in which [r] is read; the reply cannot be
    handed to the network and the lookup fails. *)
Definition turn (r : ReadResult) : ListenerEnv :=
  {| ctx_done := false; pool_choice := {| gc := false; pick := Some 0%nat |};
     read := r; now := clock; write_ok := false; geo_http := HttpErr |}.

(** A decoder that rejects every body. *)
Definition no_decode (body : string) : Part001b.GeoIP * bool :=
  (Part001b.geo_zero, false).

(** A message with characters that mean something in a URL. *)
Definition tricky : string := "a&chat_id=1#x y".

(** A world in which [msgs] wait in the queue. *)
Definition waiting (msgs : list string) : World :=
  {| heap := []; hdrs := 0; pool := [];
     msgChan := {| Chan.cap := 100; Chan.buf := msgs |} |}.

(** A turn of the dispatcher in which the API answers 200. *)
Definition deliver : DispatcherEnv :=
  {| take_done := false; api_http := HttpResp 200 EmptyString |}.

End Sample.

(** ** [main]: configuration and the two goroutines *)

Module Main.
Import Net Sys.

(** The process environment, as [os.LookupEnv] reads it once
    [godotenv.Load()] has run. *)
Definition Env : Type := string -> option string.

(** [os.Getenv(key)]: the value, empty when the variable is not set. *)
Definition Getenv (env : Env) (key : string) : string :=
  default EmptyString (env key).

Definition Setenv (key value : string) (env : Env) : Env :=
  fun k => if String.eqb k key then Some value else env k.

Definition Unsetenv (key : string) (env : Env) : Env :=
  fun k => if String.eqb k key then None else env k.

Definition no_env : Env := fun _ => None.

Record Config := {
  NTPPort : string;
  TelegramToken : string;
  TelegramChatID : string
}.

Definition load_config (env : Env) : Config :=
  {| NTPPort := Getenv env "NTP_PORT";
     TelegramToken := Getenv env "TELEGRAM_TOKEN";
     TelegramChatID := Getenv env "TELEGRAM_CHAT_ID" |}.

(** [s == ""] *)
Definition is_empty (s : string) : bool :=
  match s with EmptyString => true | String _ _ => false end.

(** How [main] goes on after reading the configuration: [logger.Fatal]
    ends the process; otherwise the queue is made and the two loops are
    started with the configuration. *)
Inductive Startup :=
| Fatal (msg : string)
| Started (config : Config) (w : World).

Definition main (env : Env) : Startup :=
  let config := load_config env in
  if is_empty (NTPPort config) || is_empty (TelegramToken config)
     || is_empty (TelegramChatID config)
  then Fatal "Отсутствуют обязательные переменные окружения: NTP_PORT, TELEGRAM_TOKEN, TELEGRAM_CHAT_ID"
  else Started config init.

(** *** The two loops side by side

    [go processTelegramMessages(...)] and [go startNTPServer(...)] share
    the queue and nothing else: the listener touches it in one offer per
    turn, the dispatcher in one receive per turn.  A schedule says whose
    turn comes next and what the outside answers in it. *)
Inductive Step :=
| Listen (e : ListenerEnv)
| Dispatch (e : DispatcherEnv).

Record Tasks := {
  world : World;
  listener : Phase;
  dispatcher : Phase;
  heard : list Event;     (* what the listener did, oldest first *)
  told : list Event       (* what the dispatcher did, oldest first *)
}.

Section Schedule.

(** One turn of [startNTPServer] and one of [processTelegramMessages]. *)
Variable listen : ListenerEnv -> M Phase.
Variable dispatch : DispatcherEnv -> M Phase.

(** A loop that has returned takes no more turns. *)
Definition step (s : Tasks) (x : Step) : Tasks :=
  match x with
  | Listen e =>
      match listener s with
      | RUNNING =>
          let r := for_loop listen (emit EvClose) [e] (world s) in
          {| world := world_of r; listener := value_of r;
             dispatcher := dispatcher s;
             heard := heard s ++ events_of r; told := told s |}
      | _ => s
      end
  | Dispatch e =>
      match dispatcher s with
      | RUNNING =>
          let r := for_loop dispatch skip [e] (world s) in
          {| world := world_of r; listener := listener s;
             dispatcher := value_of r;
             heard := heard s; told := told s ++ events_of r |}
      | _ => s
      end
  end.

Definition run (schedule : list Step) (s : Tasks) : Tasks :=
  fold_left step schedule s.

End Schedule.

(** Both loops started on the world [w]. *)
Definition started (w : World) : Tasks :=
  {| world := w; listener := RUNNING; dispatcher := RUNNING;
     heard := []; told := [] |}.

(** The program of the second file of part_001 under a schedule, from
    the environment on ([None]: it ended in [logger.Fatal]). *)
Definition program_b Decode (env : Env) (schedule : list Step) : option Tasks :=
  match main env with
  | Fatal _ => None
  | Started config w =>
      Some (run (Part001b.startNTPServer_turn Decode)
              (Part001b.processTelegramMessages_turn
                 (TelegramToken config) (TelegramChatID config))
              schedule (started w))
  end.

(** The program of the first file of part_001 under a schedule; its
    dispatcher is the one of main.go. *)
Definition program_a (env : Env) (schedule : list Step) : option Tasks :=
  match main env with
  | Fatal _ => None
  | Started config w =>
      Some (run Part001a.startNTPServer_turn
              (Part001a.processTelegramMessages_turn
                 (TelegramToken config) (TelegramChatID config))
              schedule (started w))
  end.

(** The program of main.go under a schedule. *)
Definition program_main (env : Env) (schedule : list Step) : option Tasks :=
  match main env with
  | Fatal _ => None
  | Started config w =>
      Some (run MainGo.startNTPServer_turn
              (MainGo.processTelegramMessages_turn
                 (TelegramToken config) (TelegramChatID config))
              schedule (started w))
  end.

End Main.

(** ** More readings of a log *)

Module Trace.
Import Net Sys.

(** How often the socket was closed. *)
Definition closes (evs : list Event) : nat :=
  length (omap (fun ev => match ev with EvClose => Some tt | _ => None end) evs).

(** The log entries, in order. *)
Definition logged (evs : list Event) : list (Level * string) :=
  omap (fun ev => match ev with EvLog lvl msg => Some (lvl, msg) | _ => None end) evs.

(** Events that touch the pool. *)
Definition pool_event (ev : Event) : bool :=
  match ev with EvPoolGet _ | EvPoolPut _ => true | _ => false end.

(** What a conforming client reads in the fraction field: units of
    2^-32 seconds, here converted to whole microseconds. *)
Definition ntp_fraction_micros (response : list Z) : Z :=
  (Codec.fraction_field response * 1000000 / 2 ^ 32)%Z.

(** The variables of the README's [docker run] line, added to an
    environment. *)
Definition readme_env (token admin port : string) (base : Main.Env) : Main.Env :=
  Main.Setenv "TELEGRAM_BOT_TOKEN" token
    (Main.Setenv "TELEGRAM_ADMIN_ID" admin
       (Main.Setenv "NTP_PORT" port base)).

(** What a listener's turn must do to the world for the accounts of the
    queue to balance: keep the pool in order and the capacity of the
    queue, keep the queue within its capacity, add to the queue what its
    log says it enqueued, and stop on cancellation only. *)
Definition balanced (listen : ListenerEnv -> M Phase) : Prop :=
  forall e w, Obs.pool_ok w ->
    let r := listen e w in
    Obs.pool_ok (world_of r)
    /\ Chan.cap (msgChan (world_of r)) = Chan.cap (msgChan w)
    /\ (length (Obs.queued w) <= Chan.cap (msgChan w) ->
        length (Obs.queued (world_of r)) <= Chan.cap (msgChan w))%nat
    /\ Obs.queued (world_of r) = Obs.queued w ++ Obs.enqueued (events_of r)
    /\ value_of r = (if ctx_done e then STOPPING else RUNNING).

(** The accounts of the two loops, for the URL the dispatcher builds:
    the pool is in order, the queue has capacity 100 and holds at most
    100 messages, and the messages whose URLs the dispatcher requested,
    followed by the messages waiting, are the messages the listener
    enqueued. *)
Definition accounts (url : string -> string) (s : Main.Tasks) : Prop :=
  Obs.pool_ok (Main.world s)
  /\ Chan.cap (msgChan (Main.world s)) = 100%nat
  /\ (length (Obs.queued (Main.world s)) <= 100)%nat
  /\ exists sent,
       Obs.requested (Main.told s) = map url sent
       /\ Obs.enqueued (Main.heard s) = sent ++ Obs.queued (Main.world s).

End Trace.

(** * Properties *)

(** ** Machine integers *)

Module GoIntFacts.
Import GoInt.

Lemma uint32_range x : 0 <= uint32 x < 2 ^ 32.
Proof. unfold uint32. apply Z.mod_pos_bound. lia. Qed.

Lemma byte_range x : is_byte (byte x).
Proof. unfold is_byte, byte. apply Z.mod_pos_bound. lia. Qed.

Lemma uint32_int64 x : uint32 (int64 x) = uint32 x.
Proof.
  unfold uint32, int64.
  change (2 ^ 64) with 18446744073709551616.
  change (2 ^ 63) with 9223372036854775808.
  change (2 ^ 32) with 4294967296.
  Z.div_mod_to_equations. lia.
Qed.

Lemma from_be32_shifts x :
  0 <= x < 2 ^ 32 ->
  from_be32 [byte (x ≫ 24); byte (x ≫ 16); byte (x ≫ 8); byte x] = x.
Proof.
  intros Hx. unfold from_be32, byte.
  rewrite !Z.shiftr_div_pow2 by lia.
  change (2 ^ 24) with 16777216. change (2 ^ 16) with 65536.
  change (2 ^ 8) with 256. change (2 ^ 32) with 4294967296 in Hx.
  Z.div_mod_to_equations. lia.
Qed.

End GoIntFacts.

(** ** The response codec *)

Module CodecFacts.
Import GoInt GoIntFacts Codec.

Lemma makeNTPResponse_unfold now :
  makeNTPResponse now =
    0x1c :: replicate 39 0 ++
      [byte (seconds now ≫ 24); byte (seconds now ≫ 16);
       byte (seconds now ≫ 8); byte (seconds now);
       byte (fraction now ≫ 24); byte (fraction now ≫ 16);
       byte (fraction now ≫ 8); byte (fraction now)].
Proof. reflexivity. Qed.

Lemma makeNTPResponse_length now : length (makeNTPResponse now) = 48%nat.
Proof. reflexivity. Qed.

Lemma makeNTPResponse_head now : makeNTPResponse now !! 0%nat = Some 0x1c.
Proof. reflexivity. Qed.

Lemma seconds_field_response now :
  seconds_field (makeNTPResponse now) = seconds now.
Proof.
  rewrite makeNTPResponse_unfold. unfold seconds_field. cbn [replicate app drop take].
  apply from_be32_shifts, uint32_range.
Qed.

Lemma fraction_field_response now :
  fraction_field (makeNTPResponse now) = fraction now.
Proof.
  rewrite makeNTPResponse_unfold. unfold fraction_field. cbn [replicate app drop take].
  apply from_be32_shifts, uint32_range.
Qed.

Lemma seconds_mod now : seconds now = (Unix now + 2208988800) mod 2 ^ 32.
Proof. unfold seconds. apply uint32_int64. Qed.

Lemma fraction_small now :
  0 <= Nanosecond now <= 999999999 ->
  fraction now = Nanosecond now / 1000 /\ 0 <= fraction now < 1000000.
Proof.
  intros Hn. unfold fraction, uint32.
  rewrite Z.quot_div_nonneg by lia.
  assert (0 <= Nanosecond now / 1000 < 1000000).
  { split; [apply Z.div_pos; lia | apply Z.div_lt_upper_bound; lia]. }
  rewrite Z.mod_small by lia. lia.
Qed.

(** C2: for every clock reading the reply has 48 bytes, byte 0 is 0x1C,
    bytes 1 to 39 are zero, bytes 40 to 43 hold the 32-bit seconds value
    and bytes 44 to 47 the 32-bit fraction value, both big-endian; the
    reply is a function of the clock reading alone. *)
Theorem makeNTPResponse_layout (now : Time) :
  length (makeNTPResponse now) = 48%nat
  /\ makeNTPResponse now !! 0%nat = Some 0x1c
  /\ take 39 (drop 1 (makeNTPResponse now)) = replicate 39 0
  /\ seconds_field (makeNTPResponse now) = uint32 (int64 (Unix now + 2208988800))
  /\ fraction_field (makeNTPResponse now) = uint32 (Nanosecond now ÷ 1000)
  /\ Forall is_byte (makeNTPResponse now)
  /\ makeNTPResponse now =
       [0x1c] ++ replicate 39 0
         ++ [byte (seconds now ≫ 24); byte (seconds now ≫ 16);
             byte (seconds now ≫ 8); byte (seconds now)]
         ++ [byte (fraction now ≫ 24); byte (fraction now ≫ 16);
             byte (fraction now ≫ 8); byte (fraction now)].
Proof.
  split; [reflexivity |]. split; [reflexivity |]. split; [reflexivity |].
  split; [apply seconds_field_response |].
  split; [apply fraction_field_response |].
  split; [| reflexivity].
  rewrite makeNTPResponse_unfold.
  assert (H0 : forall b, b = 0x1c \/ b = 0 -> is_byte b)
    by (unfold is_byte; lia).
  repeat first [ apply Forall_nil_2
               | apply Forall_cons_2; [first [apply byte_range | apply H0; auto] |] ].
Qed.

(** C3, as stated, fails: at 2036-02-07 06:28:16 UTC (Unix time
    2085978496) the sum is 2^32 and the field reads 0. *)
Lemma seconds_field_wraps :
  let now := {| Unix := 2085978496; Nanosecond := 0 |} in
  seconds_field (makeNTPResponse now) = 0
  /\ seconds_field (makeNTPResponse now) <> Unix now + 2208988800.
Proof. cbv zeta. split; [reflexivity | discriminate]. Qed.

(** C3, amended: the seconds field is the Unix time plus 2208988800
    reduced modulo 2^32; it is the sum itself whenever the sum fits in 32
    bits. *)
Theorem seconds_field_spec (now : Time) :
  seconds_field (makeNTPResponse now) = (Unix now + 2208988800) mod 2 ^ 32
  /\ (0 <= Unix now + 2208988800 < 2 ^ 32 ->
      seconds_field (makeNTPResponse now) = Unix now + 2208988800).
Proof.
  rewrite seconds_field_response, seconds_mod. split; [reflexivity |].
  intros H. apply Z.mod_small, H.
Qed.

Lemma seconds_field_spec_witness :
  let now := {| Unix := 1793404800; Nanosecond := 123456789 |} in
  0 <= Unix now + 2208988800 < 2 ^ 32
  /\ seconds_field (makeNTPResponse now) = 4002393600.
Proof.
  cbv zeta. split; [simpl; lia |].
  apply (proj2 (seconds_field_spec {| Unix := 1793404800; Nanosecond := 123456789 |})).
  simpl; lia.
Defined.

(** C10: with [Nanosecond()] in its range, the fraction field is the
    count of whole microseconds, nanoseconds divided by 1000, which is
    below 1000000; so byte 44 is 0 and byte 45 is at most 0x0F. *)
Theorem fraction_field_micro (now : Time) :
  0 <= Nanosecond now <= 999999999 ->
  fraction_field (makeNTPResponse now) = Nanosecond now / 1000
  /\ fraction_field (makeNTPResponse now) < 1000000
  /\ makeNTPResponse now !! 44%nat = Some 0
  /\ exists b45, makeNTPResponse now !! 45%nat = Some b45 /\ 0 <= b45 <= 0x0F.
Proof.
  intros Hn. destruct (fraction_small now Hn) as [Hf Hlt].
  rewrite fraction_field_response.
  split; [exact Hf |]. split; [lia |].
  rewrite makeNTPResponse_unfold. cbn [replicate app lookup list_lookup].
  unfold byte. rewrite !Z.shiftr_div_pow2 by lia.
  change (2 ^ 24) with 16777216. change (2 ^ 16) with 65536.
  split.
  - f_equal. Z.div_mod_to_equations. lia.
  - eexists; split; [reflexivity |]. Z.div_mod_to_equations. lia.
Qed.

Lemma fraction_field_micro_witness :
  let now := {| Unix := 1793404800; Nanosecond := 999999999 |} in
  0 <= Nanosecond now <= 999999999
  /\ fraction_field (makeNTPResponse now) = 999999
  /\ makeNTPResponse now !! 45%nat = Some 0x0F.
Proof.
  cbv zeta. split; [simpl; lia |].
  pose proof (fraction_field_micro {| Unix := 1793404800; Nanosecond := 999999999 |}) as H.
  split; [apply H; simpl; lia | reflexivity].
Defined.

End CodecFacts.

(** ** The channel *)

Module ChanFacts.
Import Chan.

Lemma offer_cap ch msg : cap (fst (offer ch msg)) = cap ch.
Proof. unfold offer, send. destruct (_ <? _)%nat; reflexivity. Qed.

Lemma offer_room ch msg :
  (length (buf ch) < cap ch)%nat ->
  offer ch msg = ({| cap := cap ch; buf := buf ch ++ [msg] |}, true).
Proof.
  intros H. unfold offer, send.
  destruct (Nat.ltb_spec (length (buf ch)) (cap ch)); [reflexivity | lia].
Qed.

Lemma offer_full ch msg :
  (cap ch <= length (buf ch))%nat -> offer ch msg = (ch, false).
Proof.
  intros H. unfold offer, send.
  destruct (Nat.ltb_spec (length (buf ch)) (cap ch)); [lia | reflexivity].
Qed.

Lemma offer_bounded ch msg :
  (length (buf ch) <= cap ch)%nat ->
  (length (buf (fst (offer ch msg))) <= cap ch)%nat.
Proof.
  intros H. destruct (Nat.lt_ge_cases (length (buf ch)) (cap ch)) as [Hlt | Hge].
  - rewrite offer_room by assumption. cbn. rewrite length_app. cbn. lia.
  - rewrite offer_full by assumption. exact H.
Qed.






End ChanFacts.

(** ** Running the state-passing code *)

Module SysFacts.
Import Net Sys Obs.

Lemma bind_run {A B} (m : M A) (f : A -> M B) w :
  (m ≫= f) w =
    let r := m w in
    let s := f (value_of r) (world_of r) in
    (value_of s, world_of s, events_of r ++ events_of s).
Proof.
  unfold mbind, M_bind, value_of, world_of, events_of.
  destruct (m w) as [[a w1] e1]. cbn. destruct (f a w1) as [[b w2] e2]. reflexivity.
Qed.

Ltac run :=
  unfold http_Get, WriteToUDP, logger_Warn, logger_Info, emit, skip,
    mbind, M_bind, mret, M_ret, value_of, world_of, events_of;
  cbn [fst snd app].

Lemma hit_lookup c p i it : hit c p = Some (i, it) -> p !! i = Some it.
Proof.
  unfold hit. destruct (pick c) as [j |]; cbn; [| discriminate].
  destruct (p !! j) eqn:E; cbn; [| discriminate].
  intros [= <- <-]. exact E.
Qed.

Lemma Get_hit c w i it :
  hit c (found c (pool w)) = Some (i, it) ->
  Get c New w =
    (it, {| heap := heap w; hdrs := hdrs w;
            pool := delete i (found c (pool w)); msgChan := msgChan w |},
     [EvPoolGet it]).
Proof. intros H. unfold Get, mbind, M_bind. cbn. rewrite H. reflexivity. Qed.

Lemma Get_miss c w :
  hit c (found c (pool w)) = None ->
  Get c New w =
    let it := {| item_hdr := hdrs w; item_arr := length (heap w) |} in
    (it, {| heap := heap w ++ [replicate 48 0]; hdrs := S (hdrs w);
            pool := found c (pool w); msgChan := msgChan w |},
     [EvPoolGet it]).
Proof. intros H. unfold Get, mbind, M_bind. cbn. rewrite H. reflexivity. Qed.

(** A sublist of a pool in order is in order. *)
Lemma pool_ok_sub (p : list Item) w :
  sublist p (pool w) -> pool_ok w ->
  NoDup (item_arr <$> p) /\ Forall (fun it => (item_arr it < length (heap w))%nat) p.
Proof.
  intros Hs [Hn Hf]. split.
  - eapply sublist_NoDup; [exact Hn |]. apply fmap_sublist, Hs.
  - rewrite Forall_forall in Hf |- *. intros it Hit.
    apply Hf. eapply elem_of_sublist; eassumption.
Qed.

Lemma found_sublist c p : sublist (found c p) p.
Proof. unfold found. destruct (gc c); [apply sublist_nil_l | reflexivity]. Qed.

(** What a [Get] yields: an allocated array that the pool no longer
    holds; the pool stays in order; the queue is not touched; a hit
    allocates nothing. *)
Lemma Get_spec c w :
  pool_ok w ->
  let r := Get c New w in
  events_of r = [EvPoolGet (value_of r)]
  /\ msgChan (world_of r) = msgChan w
  /\ pool_ok (world_of r)
  /\ (item_arr (value_of r) < length (heap (world_of r)))%nat
  /\ (item_arr (value_of r) ∉ item_arr <$> pool (world_of r))
  /\ sublist (pool (world_of r)) (pool w)
  /\ match hit c (found c (pool w)) with
     | Some (i, it) => value_of r = it /\ it ∈ pool w /\ heap (world_of r) = heap w
     | None =>
         item_arr (value_of r) = length (heap w)
         /\ length (heap (world_of r)) = S (length (heap w))
     end.
Proof.
  intros Hok. destruct (hit c (found c (pool w))) as [[i it] |] eqn:Hh; cbv zeta.
  - rewrite (Get_hit _ _ _ _ Hh). cbn.
    apply hit_lookup in Hh.
    destruct (pool_ok_sub (found c (pool w)) w (found_sublist _ _) Hok) as [Hn Hf].
    assert (Hsub : sublist (delete i (found c (pool w))) (pool w)).
    { etransitivity; [apply sublist_delete | apply found_sublist]. }
    split; [reflexivity |]. split; [reflexivity |].
    split; [apply (pool_ok_sub _ w Hsub Hok) |].
    split; [exact (Forall_lookup_1 _ _ _ _ Hf Hh) |].
    split.
    { pose proof (take_drop_middle _ _ _ Hh) as E.
      rewrite <- E in Hn. rewrite delete_take_drop.
      rewrite fmap_app, fmap_cons in Hn. rewrite fmap_app.
      apply NoDup_app in Hn as (Hn1 & Hn2 & Hn3).
      apply NoDup_cons in Hn3 as [Hn3 _].
      intros [Hin | Hin]%elem_of_app; [| exact (Hn3 Hin)].
      apply (Hn2 _ Hin). left. }
    split; [exact Hsub |].
    split; [reflexivity |]. split; [| reflexivity].
    eapply elem_of_sublist; [| apply (found_sublist c)].
    apply list_elem_of_lookup. eauto.
  - rewrite (Get_miss _ _ Hh). cbn.
    destruct (pool_ok_sub (found c (pool w)) w (found_sublist _ _) Hok) as [Hn Hf].
    split; [reflexivity |]. split; [reflexivity |].
    split.
    { split; [exact Hn |]. cbn. eapply Forall_impl; [exact Hf |].
      cbn. intros it Hit. rewrite length_app. cbn. lia. }
    split; [rewrite length_app; cbn; lia |].
    split.
    { intros (it & Hit & Hin)%list_elem_of_fmap.
      rewrite Forall_forall in Hf. apply Hf in Hin. lia. }
    split; [apply found_sublist |].
    split; [reflexivity | rewrite length_app; cbn; lia].
Qed.


(** The world with an item given back to the pool. *)
Lemma Put_run it w :
  Put it w =
    (tt, {| heap := heap w; hdrs := hdrs w; pool := it :: pool w;
            msgChan := msgChan w |}, [EvPoolPut it]).
Proof. reflexivity. Qed.

Lemma ReadFromUDP_ok payload from arr w :
  ReadFromUDP (ReadOk payload from) arr w =
    (Some (length payload, from),
     {| heap := alter (fun old => take 48 (payload ++ drop (length payload) old))
                  arr (heap w);
        hdrs := hdrs w; pool := pool w; msgChan := msgChan w |}, []).
Proof. reflexivity. Qed.

(** After a read of 48 bytes into an allocated array, byte 0 of the
    array is byte 0 of the payload. *)
Lemma load_after_read payload from arr w :
  (arr < length (heap w))%nat -> length payload = 48%nat ->
  value_of (load arr 0 (world_of (ReadFromUDP (ReadOk payload from) arr w)))
  = default 0 (payload !! 0%nat).
Proof.
  intros Ha Hl. rewrite ReadFromUDP_ok. unfold load, value_of, world_of. cbn.
  destruct (lookup_lt_is_Some_2 _ _ Ha) as [old Hold].
  rewrite list_lookup_alter, Hold. cbn.
  rewrite Hl, take_app_length' by (symmetry; exact Hl).
  case_decide; [reflexivity | congruence].
Qed.

(** [offer_msg] touches the queue only. *)
Lemma offer_msg_run msg w :
  offer_msg msg w =
    (tt, {| heap := heap w; hdrs := hdrs w; pool := pool w;
            msgChan := fst (Chan.offer (msgChan w) msg) |},
     if snd (Chan.offer (msgChan w) msg) then [EvEnqueue msg]
     else [EvLog Warn "Очередь сообщений переполнена, сообщение отброшено"]).
Proof. unfold offer_msg. destruct (Chan.offer _ _) as [ch sent]. reflexivity. Qed.

End SysFacts.

Module Part001Facts.
Import Net Sys Obs Codec Str SysFacts.

(** The buffer of one receive: the array of the item handed out, under a
    header of its own. *)
Lemma Get_buf_run c w :
  Part001a.Get_buf c w =
    let r := Get c New w in
    ({| item_hdr := hdrs (world_of r); item_arr := item_arr (value_of r) |},
     {| heap := heap (world_of r); hdrs := S (hdrs (world_of r));
        pool := pool (world_of r); msgChan := msgChan (world_of r) |},
     [EvPoolGet (value_of r)]).
Proof.
  unfold Part001a.Get_buf. rewrite bind_run. cbv zeta.
  destruct (Get c New w) as [[p w1] ev] eqn:E.
  assert (ev = [EvPoolGet p]) as ->.
  { unfold Get, mbind, M_bind in E. cbn in E.
    destruct (hit c (found c (pool w))) as [[i it] |]; cbn in E;
      injection E as <- <- <-; reflexivity. }
  reflexivity.
Qed.

(** One receive, case by case (both files of part_001). *)
Lemma receive_with_run serve e w :
  let c := Part001a.Get_buf (pool_choice e) w in
  let buf := value_of c in
  let rd := ReadFromUDP (read e) (item_arr buf) (world_of c) in
  let w2 := world_of rd in
  let back := fun w3 => world_of (Put buf w3) in
  Part001a.receive_with serve e w =
    match value_of rd with
    | None =>
        (tt, back w2, events_of c ++ [EvLog Warn "Ошибка чтения UDP"; EvPoolPut buf])
    | Some (n, from) =>
        if (n =? 48)%nat then
          if (Z.land (value_of (load (item_arr buf) 0 w2)) 0x07 =? 3) then
            let s := serve e from w2 in
            (tt, back (world_of s), events_of c ++ events_of s ++ [EvPoolPut buf])
          else
            (tt, back w2,
             events_of c ++ [EvLog Info "Получен некорректный NTP-запрос"; EvPoolPut buf])
        else
          (tt, back w2,
           events_of c ++ [EvLog Info "Получен пакет с некорректным размером"; EvPoolPut buf])
    end.
Proof.
  cbv zeta. unfold Part001a.receive_with.
  rewrite bind_run. cbv zeta.
  destruct (Part001a.Get_buf (pool_choice e) w) as [[buf w1] ev1].
  cbn [value_of world_of events_of fst snd].
  destruct (read e) as [| payload from].
  - reflexivity.
  - rewrite bind_run. cbv zeta. rewrite ReadFromUDP_ok.
    cbn [value_of world_of events_of fst snd app].
    destruct (length payload =? 48)%nat.
    + rewrite bind_run. cbv zeta. rewrite bind_run. cbv zeta.
      set (w2 := {| heap := _ |}).
      change (value_of (load (item_arr buf) 0 w2)) with
        (default 0 (heap w2 !! item_arr buf ≫= fun b => b !! 0%nat)).
      cbn [value_of world_of events_of fst snd app load].
      destruct (Z.land _ 7 =? 3).
      * destruct (serve e from w2) as [[[] w3] ev3]. reflexivity.
      * reflexivity.
    + reflexivity.
Qed.

Lemma serve_a_run e from w :
  Part001a.serve e from w =
    let o := offer_msg (plain_alert from) w in
    (tt, world_of o,
     [EvWriteToUDP (makeNTPResponse (now e)) from]
       ++ (if write_ok e then [] else [EvLog Warn "Ошибка отправки ответа клиенту"])
       ++ events_of o).
Proof.
  unfold Part001a.serve, plain_alert. cbv zeta.
  destruct (write_ok e); run;
    destruct (offer_msg _ w) as [[[] w'] ev]; reflexivity.
Qed.

(** [getGeoIP] makes one request and leaves the world as it is; its
    result depends on the answer alone. *)
Lemma getGeoIP_run Decode http ip w :
  Part001b.getGeoIP Decode http ip w =
    (match http with
     | HttpErr => (Part001b.geo_zero, Some Part001b.ErrTransport)
     | HttpResp StatusCode Body =>
         if (StatusCode =? StatusOK) then
           (fst (Decode Body),
            if snd (Decode Body) then None else Some Part001b.ErrDecode)
         else (Part001b.geo_zero, Some (Part001b.ErrStatus StatusCode))
     end, w, [EvHttpGet (Part001b.geo_url ip)]).
Proof.
  unfold Part001b.getGeoIP. run.
  destruct http as [| st body]; [reflexivity |].
  destruct (st =? StatusOK); cbn [negb]; [| reflexivity].
  destruct (Decode body) as [g []]; reflexivity.
Qed.

Lemma getGeoIP_frame Decode http ip w :
  Part001b.getGeoIP Decode http ip w =
    (lookup_outcome Decode http ip, w, [EvHttpGet (Part001b.geo_url ip)]).
Proof. unfold lookup_outcome. rewrite !getGeoIP_run. reflexivity. Qed.

Lemma serve_b_run Decode e from w :
  Part001b.serve Decode e from w =
    let o := offer_msg (alert Decode e from) w in
    (tt, world_of o,
     [EvWriteToUDP (makeNTPResponse (now e)) from]
       ++ (if write_ok e then [] else [EvLog Warn "Ошибка отправки ответа клиенту"])
       ++ [EvHttpGet (Part001b.geo_url (IP_String from))]
       ++ match snd (lookup_outcome Decode (geo_http e) (IP_String from)) with
          | Some _ => [EvLog Warn "Ошибка получения геолокационных данных"]
          | None => []
          end
       ++ events_of o).
Proof.
  unfold Part001b.serve, alert. cbv zeta.
  destruct (write_ok e); run; rewrite getGeoIP_frame;
    destruct (lookup_outcome Decode (geo_http e) (IP_String from)) as [geo [err |]];
    cbn [fst snd app];
    destruct (offer_msg _ w) as [[[] w'] ev]; reflexivity.
Qed.

Lemma Get_buf_spec c w :
  pool_ok w ->
  exists p buf w1,
    Part001a.Get_buf c w = (buf, w1, [EvPoolGet p])
    /\ item_arr buf = item_arr p
    /\ msgChan w1 = msgChan w
    /\ pool_ok w1
    /\ (item_arr buf < length (heap w1))%nat
    /\ (item_arr buf ∉ item_arr <$> pool w1)
    /\ sublist (pool w1) (pool w)
    /\ match hit c (found c (pool w)) with
       | Some (i, it) => p = it /\ it ∈ pool w /\ heap w1 = heap w
       | None =>
           item_arr p = length (heap w)
           /\ length (heap w1) = S (length (heap w))
       end.
Proof.
  intros Hok. rewrite Get_buf_run. cbv zeta.
  destruct (Get_spec c w Hok) as (_ & Hch & Hok1 & Hlt & Hnin & Hsub & Hhit).
  eexists _, _, _. split; [reflexivity |]. cbn.
  repeat split; try assumption; apply Hok1.
Qed.

(** A receive of a request: the reply and the alert come between the
    checkout of the buffer and its return. *)
Lemma receive_with_valid serve e w payload from :
  pool_ok w -> read e = ReadOk payload from -> well_formed (read e) = true ->
  exists p buf w2,
    Part001a.receive_with serve e w =
      (tt, world_of (Put buf (world_of (serve e from w2))),
       [EvPoolGet p] ++ events_of (serve e from w2) ++ [EvPoolPut buf])
    /\ item_arr buf = item_arr p /\ msgChan w2 = msgChan w.
Proof.
  intros Hok Hrd Hwf. rewrite Hrd in Hwf. cbn in Hwf.
  apply andb_true_iff in Hwf as [Hlen Hmode].
  apply Nat.eqb_eq in Hlen.
  destruct (Get_buf_spec (pool_choice e) w Hok)
    as (p & buf & w1 & Hg & Harr & Hch & _ & Hlt & _).
  rewrite receive_with_run, Hg, Hrd. cbv zeta.
  cbn [value_of world_of events_of fst snd].
  rewrite load_after_read by assumption.
  rewrite ReadFromUDP_ok. cbn [value_of world_of events_of fst snd].
  rewrite Hlen. cbn [Nat.eqb]. fold (mode_of payload). rewrite Hmode.
  eexists _, _, _. split; [reflexivity |]. split; [exact Harr | exact Hch].
Qed.

(** Any other receive logs one entry between the checkout and the
    return, and leaves the queue alone. *)
Lemma receive_with_invalid serve e w :
  pool_ok w -> well_formed (read e) = false ->
  exists p buf w2 lvl txt,
    Part001a.receive_with serve e w =
      (tt, world_of (Put buf w2), [EvPoolGet p; EvLog lvl txt; EvPoolPut buf])
    /\ item_arr buf = item_arr p /\ msgChan w2 = msgChan w.
Proof.
  intros Hok Hwf.
  destruct (Get_buf_spec (pool_choice e) w Hok)
    as (p & buf & w1 & Hg & Harr & Hch & _ & Hlt & _).
  rewrite receive_with_run, Hg. cbv zeta.
  cbn [value_of world_of events_of fst snd].
  destruct (read e) as [| payload from] eqn:Hrd.
  - cbn. eexists _, _, _, _, _. split; [reflexivity |]. split; assumption.
  - cbn in Hwf.
    destruct (Nat.eqb_spec (length payload) 48) as [Hlen | Hlen].
    + cbn [andb] in Hwf.
      rewrite load_after_read by assumption.
      rewrite ReadFromUDP_ok. cbn [value_of world_of events_of fst snd].
      rewrite Hlen. cbn [Nat.eqb]. fold (mode_of payload). rewrite Hwf.
      cbn. eexists _, _, _, _, _. split; [reflexivity |]. split; assumption.
    + rewrite ReadFromUDP_ok. cbn [value_of world_of events_of fst snd].
      destruct (Nat.eqb_spec (length payload) 48); [contradiction |].
      cbn. eexists _, _, _, _, _. split; [reflexivity |]. split; assumption.
Qed.


Lemma replies_app e1 e2 : replies (e1 ++ e2) = replies e1 ++ replies e2.
Proof. apply omap_app. Qed.

Lemma enqueued_app e1 e2 : enqueued (e1 ++ e2) = enqueued e1 ++ enqueued e2.
Proof. apply omap_app. Qed.

Lemma requested_app e1 e2 : requested (e1 ++ e2) = requested e1 ++ requested e2.
Proof. apply omap_app. Qed.

(** What [offer_msg] shows: the message enters the queue when there is
    room, and nothing else happens to the world. *)
Lemma offer_msg_obs msg w :
  let o := offer_msg msg w in
  msgChan (world_of o) = fst (Chan.offer (msgChan w) msg)
  /\ replies (events_of o) = []
  /\ requested (events_of o) = []
  /\ enqueued (events_of o) = (if snd (Chan.offer (msgChan w) msg) then [msg] else []).
Proof.
  cbv zeta. rewrite offer_msg_run. cbn.
  destruct (snd (Chan.offer (msgChan w) msg)); repeat split; reflexivity.
Qed.

(** What the second file's [serve] shows: one reply, written first, then
    one lookup, then the offer of the alert. *)
Lemma serve_b_obs Decode e from w :
  let s := Part001b.serve Decode e from w in
  let msg := alert Decode e from in
  msgChan (world_of s) = fst (Chan.offer (msgChan w) msg)
  /\ replies (events_of s) = [(makeNTPResponse (now e), from)]
  /\ enqueued (events_of s) = (if snd (Chan.offer (msgChan w) msg) then [msg] else [])
  /\ requested (events_of s) = [Part001b.geo_url (IP_String from)]
  /\ exists rest, events_of s = EvWriteToUDP (makeNTPResponse (now e)) from :: rest.
Proof.
  cbv zeta. rewrite serve_b_run. cbv zeta.
  destruct (offer_msg_obs (alert Decode e from) w) as (Hch & Hr & Hq & He).
  cbn [value_of world_of events_of fst snd].
  rewrite !replies_app, !enqueued_app, !requested_app, Hr, Hq, He.
  split; [exact Hch |].
  destruct (write_ok e);
    destruct (snd (lookup_outcome Decode (geo_http e) (IP_String from)));
    cbn; repeat split; try reflexivity; eexists; reflexivity.
Qed.

Lemma serve_a_obs e from w :
  let s := Part001a.serve e from w in
  let msg := plain_alert from in
  msgChan (world_of s) = fst (Chan.offer (msgChan w) msg)
  /\ replies (events_of s) = [(makeNTPResponse (now e), from)]
  /\ enqueued (events_of s) = (if snd (Chan.offer (msgChan w) msg) then [msg] else []).
Proof.
  cbv zeta. rewrite serve_a_run. cbv zeta.
  destruct (offer_msg_obs (plain_alert from) w) as (Hch & Hr & Hq & He).
  cbn [value_of world_of events_of fst snd].
  rewrite !replies_app, !enqueued_app, Hr, He.
  split; [exact Hch |].
  destruct (write_ok e); cbn; repeat split; reflexivity.
Qed.

(** C5: a request of 48 bytes with mode 3 is answered, whatever the
    lookup returns, whether or not the reply could be handed to the
    network and whatever the queue holds: the listener writes one
    datagram to the requester, the 48 bytes of [makeNTPResponse] with
    byte 0 equal to 0x1C, before it looks the address up or offers the
    alert. *)
Theorem reply_regardless Decode e w payload from :
  pool_ok w -> read e = ReadOk payload from ->
  length payload = 48%nat -> mode_of payload = 3 ->
  let evs := events_of (Part001b.receive Decode e w) in
  replies evs = [(makeNTPResponse (now e), from)]
  /\ length (makeNTPResponse (now e)) = 48%nat
  /\ makeNTPResponse (now e) !! 0%nat = Some 0x1c
  /\ exists pre post,
       evs = pre ++ EvWriteToUDP (makeNTPResponse (now e)) from :: post
       /\ requested pre = [] /\ enqueued pre = [].
Proof.
  intros Hok Hrd Hlen Hmode.
  assert (Hwf : well_formed (read e) = true).
  { rewrite Hrd. cbn. rewrite Hlen, Hmode. reflexivity. }
  destruct (receive_with_valid (Part001b.serve Decode) e w payload from Hok Hrd Hwf)
    as (p & buf & w2 & Hrun & _ & _).
  cbv zeta. unfold Part001b.receive. rewrite Hrun.
  destruct (serve_b_obs Decode e from w2) as (_ & Hr & _ & _ & rest & Hev).
  cbn [events_of snd]. rewrite !replies_app, Hr.
  split; [reflexivity |]. split; [reflexivity |]. split; [reflexivity |].
  exists [EvPoolGet p], (rest ++ [EvPoolPut buf]).
  rewrite Hev. repeat split; reflexivity.
Qed.


Lemma append_assoc (a b c : string) : ((a ++ b) ++ c = a ++ (b ++ c))%string.
Proof. induction a as [| ch a IH]; cbn; [reflexivity | rewrite IH; reflexivity]. Qed.

Lemma Put_msgChan it w : msgChan (world_of (Put it w)) = msgChan w.
Proof. reflexivity. Qed.

Lemma msg_unknown_contains ip :
  contains (Part001b.msg_unknown ip) ip
  /\ contains (Part001b.msg_unknown ip) unknown_location.
Proof.
  split.
  - exists "Синхронизация NTP с клиентом: "%string,
      " (геолокация не определена)"%string. reflexivity.
  - exists ("Синхронизация NTP с клиентом: " ++ ip ++ " ")%string, EmptyString.
    rewrite !append_assoc. reflexivity.
Qed.

(** The three ways the lookup fails, and no other. *)
Lemma getGeoIP_fails Decode http ip w :
  snd (value_of (Part001b.getGeoIP Decode http ip w)) <> None <->
  http = HttpErr
  \/ exists st body, http = HttpResp st body
       /\ (st <> StatusOK \/ snd (Decode body) = false).
Proof.
  rewrite getGeoIP_run. cbn [value_of fst snd].
  destruct http as [| st body].
  - split; [left; reflexivity | discriminate].
  - destruct (Z.eqb_spec st StatusOK) as [-> | Hne]; cbn [snd].
    + destruct (snd (Decode body)) eqn:Hd.
      * split; [congruence |].
        intros [? | (st' & body' & [= <- <-] & [? | ?])]; congruence.
      * split; [| discriminate]. intros _. right. eauto.
    + split; [| discriminate]. intros _. right. eauto.
Qed.

(** C6: [getGeoIP] returns an error exactly when the request fails, the
    status is not 200 or the body does not decode; and when the lookup
    for a request fails, the alert offered to the queue is the text with
    the requester's address and the mark of an unknown location: it
    enters the queue whenever the queue has room. *)
Theorem lookup_failure_alert Decode e w payload from :
  pool_ok w -> read e = ReadOk payload from -> well_formed (read e) = true ->
  let ip := IP_String from in
  let r := Part001b.receive Decode e w in
  (forall http ip' w',
     snd (value_of (Part001b.getGeoIP Decode http ip' w')) <> None <->
     http = HttpErr
     \/ exists st body, http = HttpResp st body
          /\ (st <> StatusOK \/ snd (Decode body) = false))
  /\ (snd (value_of (Part001b.getGeoIP Decode (geo_http e) ip w)) <> None ->
      msgChan (world_of r) = fst (Chan.offer (msgChan w) (Part001b.msg_unknown ip))
      /\ contains (Part001b.msg_unknown ip) ip
      /\ contains (Part001b.msg_unknown ip) unknown_location
      /\ ((length (queued w) < Chan.cap (msgChan w))%nat ->
          enqueued (events_of r) = [Part001b.msg_unknown ip]
          /\ queued (world_of r) = queued w ++ [Part001b.msg_unknown ip])).
Proof.
  intros Hok Hrd Hwf. cbv zeta.
  split; [intros; apply getGeoIP_fails |].
  intros Hfail.
  destruct (receive_with_valid (Part001b.serve Decode) e w payload from Hok Hrd Hwf)
    as (p & buf & w2 & Hrun & _ & Hch).
  unfold Part001b.receive. rewrite Hrun.
  destruct (serve_b_obs Decode e from w2) as (Hq & _ & He & _).
  assert (Ha : alert Decode e from = Part001b.msg_unknown (IP_String from)).
  { unfold alert, lookup_outcome. cbv zeta.
    rewrite getGeoIP_frame in Hfail. rewrite getGeoIP_frame.
    cbn [value_of fst snd] in Hfail |- *.
    destruct (snd (lookup_outcome Decode (geo_http e) (IP_String from)));
      [reflexivity | congruence]. }
  rewrite Ha, Hch in Hq, He.
  change (world_of (tt, ?x, ?y)) with x. change (events_of (tt, ?x, ?y)) with y.
  rewrite Put_msgChan.
  split; [exact Hq |].
  split; [apply msg_unknown_contains |]. split; [apply msg_unknown_contains |].
  intros Hroom. unfold queued in *.
  rewrite !enqueued_app, He, Put_msgChan, Hq.
  rewrite ChanFacts.offer_room by exact Hroom. split; reflexivity.
Qed.

(** In both files of part_001 a reply is written exactly for a request
    of 48 bytes with mode 3; any other receive writes nothing and leaves
    the queue as it was. *)
Lemma validated_a e w :
  pool_ok w ->
  let r := Part001a.receive e w in
  (replies (events_of r) <> [] <-> well_formed (read e) = true)
  /\ (well_formed (read e) = false ->
      replies (events_of r) = [] /\ enqueued (events_of r) = []
      /\ msgChan (world_of r) = msgChan w).
Proof.
  intros Hok. cbv zeta. unfold Part001a.receive.
  destruct (well_formed (read e)) eqn:Hwf.
  - destruct (read e) as [| payload from] eqn:Hrd; [discriminate |].
    rewrite <- Hrd in Hwf.
    destruct (receive_with_valid Part001a.serve e w payload from Hok Hrd Hwf)
      as (p & buf & w2 & Hrun & _ & _).
    rewrite Hrun. destruct (serve_a_obs e from w2) as (_ & Hr & _).
    cbn [events_of snd]. rewrite !replies_app, Hr.
    split; [split; [reflexivity | discriminate] | discriminate].
  - destruct (receive_with_invalid Part001a.serve e w Hok Hwf)
      as (p & buf & w2 & lvl & txt & Hrun & _ & Hch).
    rewrite Hrun. change (world_of (tt, ?x, ?y)) with x. rewrite Put_msgChan.
    cbn. split; [split; congruence |]. intros _. repeat split. exact Hch.
Qed.

Lemma validated_b Decode e w :
  pool_ok w ->
  let r := Part001b.receive Decode e w in
  (replies (events_of r) <> [] <-> well_formed (read e) = true)
  /\ (well_formed (read e) = false ->
      replies (events_of r) = [] /\ enqueued (events_of r) = []
      /\ msgChan (world_of r) = msgChan w).
Proof.
  intros Hok. cbv zeta. unfold Part001b.receive.
  destruct (well_formed (read e)) eqn:Hwf.
  - destruct (read e) as [| payload from] eqn:Hrd; [discriminate |].
    rewrite <- Hrd in Hwf.
    destruct (receive_with_valid (Part001b.serve Decode) e w payload from Hok Hrd Hwf)
      as (p & buf & w2 & Hrun & _ & _).
    rewrite Hrun. destruct (serve_b_obs Decode e from w2) as (_ & Hr & _).
    cbn [events_of snd]. rewrite !replies_app, Hr.
    split; [split; [reflexivity | discriminate] | discriminate].
  - destruct (receive_with_invalid (Part001b.serve Decode) e w Hok Hwf)
      as (p & buf & w2 & lvl & txt & Hrun & _ & Hch).
    rewrite Hrun. change (world_of (tt, ?x, ?y)) with x. rewrite Put_msgChan.
    cbn. split; [split; congruence |]. intros _. repeat split. exact Hch.
Qed.


End Part001Facts.

(** ** main.go *)

Module MainGoFacts.
Import Net Sys Obs Codec Str SysFacts Part001Facts.

Lemma Put_slice_run arr w :
  MainGo.Put_slice arr w =
    let it := {| item_hdr := hdrs w; item_arr := arr |} in
    (tt, {| heap := heap w; hdrs := S (hdrs w); pool := it :: pool w;
            msgChan := msgChan w |}, [EvPoolPut it]).
Proof. reflexivity. Qed.

Lemma Get_events c w : events_of (Get c New w) = [EvPoolGet (value_of (Get c New w))].
Proof.
  destruct (hit c (found c (pool w))) as [[i it] |] eqn:Hh.
  - rewrite (Get_hit _ _ _ _ Hh). reflexivity.
  - rewrite (Get_miss _ _ Hh). reflexivity.
Qed.

(** One receive of main.go, case by case. *)
Lemma receive_run e w :
  let c := Get (pool_choice e) New w in
  let buf := item_arr (value_of c) in
  let w2 := world_of (ReadFromUDP (read e) buf (world_of c)) in
  MainGo.receive e w =
    match read e with
    | ReadErr =>
        (tt, world_of (MainGo.Put_slice buf w2),
         events_of c ++ [EvLog Warn "Ошибка чтения UDP"]
           ++ events_of (MainGo.Put_slice buf w2))
    | ReadOk payload from =>
        let o := offer_msg (plain_alert from) w2 in
        (tt, world_of (MainGo.Put_slice buf (world_of o)),
         events_of c
           ++ (if (0 <? length payload)%nat then
                 [EvWriteToUDP (makeNTPResponse (now e)) from]
                   ++ (if write_ok e then []
                       else [EvLog Warn "Ошибка отправки ответа клиенту"])
               else [])
           ++ events_of o
           ++ events_of (MainGo.Put_slice buf (world_of o)))
    end.
Proof.
  cbv zeta. unfold MainGo.receive. rewrite bind_run. cbv zeta.
  destruct (Get (pool_choice e) New w) as [[it w1] ev1].
  cbn [value_of world_of events_of fst snd].
  destruct (read e) as [| payload from].
  - reflexivity.
  - rewrite bind_run. cbv zeta. rewrite ReadFromUDP_ok.
    cbn [value_of world_of events_of fst snd app].
    set (w2 := {| heap := _ |}). fold (plain_alert from).
    destruct (0 <? length payload)%nat; destruct (write_ok e); run;
      destruct (offer_msg _ w2) as [[[] w3] ev3]; cbn [fst snd app];
      rewrite ?app_nil_r; reflexivity.
Qed.

(** C1 on main.go: a datagram of 10 bytes, and one of 48 bytes with
    mode 4, are both answered and both raise an alert. *)
Theorem main_go_answers_any_datagram :
  let r10 := MainGo.receive (Sample.turn (ReadOk Sample.short Sample.client)) init in
  let r4 := MainGo.receive (Sample.turn (ReadOk Sample.server_mode Sample.client)) init in
  length Sample.short = 10%nat
  /\ replies (events_of r10) = [(makeNTPResponse Sample.clock, Sample.client)]
  /\ enqueued (events_of r10) = [plain_alert Sample.client]
  /\ length Sample.server_mode = 48%nat /\ mode_of Sample.server_mode = 4
  /\ replies (events_of r4) = [(makeNTPResponse Sample.clock, Sample.client)]
  /\ enqueued (events_of r4) = [plain_alert Sample.client].
Proof. cbv zeta. repeat split; vm_compute; reflexivity. Qed.

(** On main.go every read that delivers at least one byte is answered,
    and every successful read offers an alert. *)
Lemma main_go_receive_obs e w payload from :
  read e = ReadOk payload from ->
  let r := MainGo.receive e w in
  replies (events_of r) =
    (if (0 <? length payload)%nat then [(makeNTPResponse (now e), from)] else [])
  /\ msgChan (world_of r) = fst (Chan.offer (msgChan w) (plain_alert from)).
Proof.
  intros Hrd. cbv zeta. rewrite receive_run, Hrd. cbv zeta.
  rewrite ReadFromUDP_ok. cbn [value_of world_of events_of fst snd].
  set (w2 := {| heap := _ |}).
  destruct (offer_msg_obs (plain_alert from) w2) as (Hch & Hr & _ & _).
  rewrite Put_slice_run. cbv zeta. cbn [fst snd msgChan].
  rewrite !replies_app, Hr, Get_events, Hch.
  split.
  - destruct (0 <? length payload)%nat; destruct (write_ok e); reflexivity.
  - subst w2. cbn [msgChan].
    destruct (hit (pool_choice e) (found (pool_choice e) (pool w))) as [[i it] |] eqn:Hh.
    + rewrite (Get_hit _ _ _ _ Hh). reflexivity.
    + rewrite (Get_miss _ _ Hh). reflexivity.
Qed.


End MainGoFacts.

(** ** The buffer pool *)

Module PoolFacts.
Import Net Sys Obs Codec Str SysFacts Part001Facts MainGoFacts.

Lemma checked_out_app e1 e2 : checked_out (e1 ++ e2) = checked_out e1 ++ checked_out e2.
Proof. apply omap_app. Qed.

Lemma given_back_app e1 e2 : given_back (e1 ++ e2) = given_back e1 ++ given_back e2.
Proof. apply omap_app. Qed.

Lemma offer_msg_frame msg : pool_frame (offer_msg msg).
Proof.
  intros w. rewrite offer_msg_run. cbn.
  destruct (snd (Chan.offer (msgChan w) msg)); repeat split; reflexivity.
Qed.

Lemma serve_a_frame e from : pool_frame (Part001a.serve e from).
Proof.
  intros w. rewrite serve_a_run. cbv zeta.
  destruct (offer_msg_frame (plain_alert from) w) as (Hh & Hp & Hc & Hg).
  cbn [world_of events_of fst snd] in *.
  rewrite !checked_out_app, !given_back_app, Hc, Hg.
  destruct (write_ok e); repeat split; assumption.
Qed.

Lemma serve_b_frame Decode e from : pool_frame (Part001b.serve Decode e from).
Proof.
  intros w. rewrite serve_b_run. cbv zeta.
  destruct (offer_msg_frame (alert Decode e from) w) as (Hh & Hp & Hc & Hg).
  cbn [world_of events_of fst snd] in *.
  rewrite !checked_out_app, !given_back_app, Hc, Hg.
  destruct (write_ok e);
    destruct (snd (lookup_outcome Decode (geo_http e) (IP_String from)));
    repeat split; assumption.
Qed.

(** Giving back an array that the pool does not hold keeps the pool in
    order, whatever was written to the arrays meanwhile. *)
Lemma pool_ok_back it (w1 w3 : World) :
  pool_ok w1 -> (item_arr it < length (heap w1))%nat ->
  (item_arr it ∉ item_arr <$> pool w1) ->
  length (heap w3) = length (heap w1) -> pool w3 = it :: pool w1 ->
  pool_ok w3.
Proof.
  intros [Hn Hf] Hlt Hnin Hlen Hp. unfold pool_ok. rewrite Hp, Hlen. split.
  - rewrite fmap_cons. apply NoDup_cons. split; assumption.
  - apply Forall_cons. split; assumption.
Qed.


(** From a [Get] to the return of its array. *)
Lemma borrows_intro c w (r : unit * World * list Event) back :
  pool_ok w ->
  let g := Get c New w in
  item_arr back = item_arr (value_of g) ->
  pool (world_of r) = back :: pool (world_of g) ->
  length (heap (world_of r)) = length (heap (world_of g)) ->
  checked_out (events_of r) = [item_arr (value_of g)] ->
  given_back (events_of r) = [item_arr (value_of g)] ->
  borrows c w r.
Proof.
  intros Hok g Hb Hp Hl Hc Hg.
  destruct (Get_spec c w Hok) as (_ & _ & Hok1 & Hlt & Hnin & Hsub & Hhit).
  fold g in Hok1, Hlt, Hnin, Hsub, Hhit.
  exists (item_arr (value_of g)), back, (pool (world_of g)).
  split; [exact Hc |]. split; [exact Hg |]. split; [exact Hp |].
  split; [exact Hb |]. split; [exact Hnin |]. split; [exact Hsub |].
  split.
  { apply (pool_ok_back back (world_of g)); try assumption; rewrite Hb; assumption. }
  destruct (hit c (found c (pool w))) as [[i it] |].
  - destruct Hhit as (Hv & Hin & Hh). rewrite Hl, Hh, Hv. auto.
  - destruct Hhit as (Hv & Hh). rewrite Hl. auto.
Qed.

Lemma Get_buf_obs c w :
  let g := Get c New w in
  let b := Part001a.Get_buf c w in
  item_arr (value_of b) = item_arr (value_of g)
  /\ pool (world_of b) = pool (world_of g)
  /\ heap (world_of b) = heap (world_of g)
  /\ events_of b = [EvPoolGet (value_of g)].
Proof. cbv zeta. rewrite Get_buf_run. repeat split. Qed.

(** Whatever is read, a receive of part_001 runs between the checkout
    and the return some code that leaves the pool alone and allocates
    nothing. *)
Lemma receive_with_shape serve e w :
  (forall e from, pool_frame (serve e from)) ->
  let c := Part001a.Get_buf (pool_choice e) w in
  exists W mid,
    Part001a.receive_with serve e w =
      (tt, world_of (Put (value_of c) W),
       events_of c ++ mid ++ [EvPoolPut (value_of c)])
    /\ pool W = pool (world_of c)
    /\ length (heap W) = length (heap (world_of c))
    /\ checked_out mid = [] /\ given_back mid = [].
Proof.
  intros Hfr. cbv zeta. rewrite receive_with_run. cbv zeta.
  destruct (Part001a.Get_buf (pool_choice e) w) as [[buf w1] ev1].
  cbn [value_of world_of events_of fst snd].
  destruct (read e) as [| payload from].
  - exists w1, [EvLog Warn "Ошибка чтения UDP"]. repeat split.
  - rewrite ReadFromUDP_ok. cbn [value_of world_of events_of fst snd].
    set (w2 := {| heap := _ |}).
    assert (Hw2 : pool w2 = pool w1 /\ length (heap w2) = length (heap w1)).
    { subst w2. cbn. rewrite length_alter. split; reflexivity. }
    destruct Hw2 as [Hp Hl].
    destruct (length payload =? 48)%nat.
    + destruct (Z.land _ 7 =? 3).
      * destruct (Hfr e from w2) as (Fh & Fp & Fc & Fg).
        exists (world_of (serve e from w2)), (events_of (serve e from w2)).
        rewrite Fh, Fp. repeat split; assumption.
      * exists w2, [EvLog Info "Получен некорректный NTP-запрос"]. repeat split; assumption.
    + exists w2, [EvLog Info "Получен пакет с некорректным размером"].
      repeat split; assumption.
Qed.

Lemma receive_with_borrows serve e w :
  (forall e from, pool_frame (serve e from)) -> pool_ok w ->
  borrows (pool_choice e) w (Part001a.receive_with serve e w).
Proof.
  intros Hfr Hok.
  destruct (Get_buf_obs (pool_choice e) w) as (Harr & Hp & Hh & Hev).
  destruct (receive_with_shape serve e w Hfr) as (W & mid & Hrun & HpW & HlW & Hc & Hg).
  rewrite Hrun, Hev.
  apply (borrows_intro _ _ _ (value_of (Part001a.Get_buf (pool_choice e) w)));
    [exact Hok | exact Harr | ..];
    rewrite ?Put_run; cbn [world_of events_of fst snd heap pool];
    rewrite ?checked_out_app, ?given_back_app, ?Hc, ?Hg.
  - rewrite HpW, Hp. reflexivity.
  - rewrite HlW, Hh. reflexivity.
  - reflexivity.
  - cbn. rewrite Harr. reflexivity.
Qed.

(** The same for the receive of main.go, whose pool items are slices. *)
Lemma main_go_borrows e w :
  pool_ok w -> borrows (pool_choice e) w (MainGo.receive e w).
Proof.
  intros Hok.
  pose proof (Get_events (pool_choice e) w) as Hge.
  set (g := Get (pool_choice e) New w) in *.
  assert (exists W mid,
    MainGo.receive e w =
      (tt, world_of (MainGo.Put_slice (item_arr (value_of g)) W),
       events_of g ++ mid ++ events_of (MainGo.Put_slice (item_arr (value_of g)) W))
    /\ pool W = pool (world_of g) /\ length (heap W) = length (heap (world_of g))
    /\ checked_out mid = [] /\ given_back mid = [])
    as (W & mid & Hrun & HpW & HlW & Hc & Hg).
  { rewrite receive_run. cbv zeta. fold g.
    destruct (read e) as [| payload from].
    - exists (world_of g), [EvLog Warn "Ошибка чтения UDP"]. repeat split.
    - rewrite ReadFromUDP_ok. cbn [value_of world_of events_of fst snd].
      set (w2 := {| heap := _ |}).
      destruct (offer_msg_frame (plain_alert from) w2) as (Fh & Fp & Fc & Fg).
      exists (world_of (offer_msg (plain_alert from) w2)),
        ((if (0 <? length payload)%nat then
            [EvWriteToUDP (makeNTPResponse (now e)) from]
              ++ (if write_ok e then []
                  else [EvLog Warn "Ошибка отправки ответа клиенту"])
          else []) ++ events_of (offer_msg (plain_alert from) w2)).
      split; [do 2 f_equal; apply app_assoc |].
      rewrite Fh, Fp, !checked_out_app, !given_back_app, Fc, Fg.
      subst w2. cbn [heap pool]. rewrite length_alter.
      destruct (0 <? length payload)%nat; destruct (write_ok e); repeat split. }
  rewrite Hrun, Hge.
  apply (borrows_intro _ _ _ {| item_hdr := hdrs W; item_arr := item_arr (value_of g) |});
    [exact Hok | reflexivity | ..];
    rewrite Put_slice_run; cbv zeta; cbn [world_of events_of fst snd heap pool];
    rewrite ?checked_out_app, ?given_back_app, ?Hc, ?Hg.
  - rewrite HpW. reflexivity.
  - exact HlW.
  - reflexivity.
  - reflexivity.
Qed.


End PoolFacts.

(** ** The loops *)

Module LoopFacts.
Import Net Sys Obs Codec Str SysFacts Part001Facts MainGoFacts PoolFacts.

Section ForLoop.
Context {E : Type} (turn : E -> M Phase) (deferred : M unit) (stop : E -> bool).
Hypothesis turn_phase :
  forall e w, value_of (turn e w) = if stop e then STOPPING else RUNNING.

Lemma for_loop_cons e script w :
  for_loop turn deferred (e :: script) w =
    let t := turn e w in
    if stop e then
      (STOPPED, world_of (deferred (world_of t)),
       events_of t ++ events_of (deferred (world_of t)))
    else
      let r := for_loop turn deferred script (world_of t) in
      (value_of r, world_of r, events_of t ++ events_of r).
Proof.
  cbn [for_loop]. rewrite bind_run. cbv zeta. rewrite turn_phase.
  destruct (stop e).
  - rewrite bind_run. cbv zeta. cbn [value_of world_of events_of fst snd mret M_ret].
    rewrite app_nil_r. reflexivity.
  - destruct (for_loop turn deferred script (world_of (turn e w))) as [[ph w'] ev].
    reflexivity.
Qed.

(** A loop has returned exactly when some turn found the stop signal. *)
Lemma for_loop_phase script : forall w,
  value_of (for_loop turn deferred script w) =
    if existsb stop script then STOPPED else RUNNING.
Proof.
  induction script as [| e script IH]; intros w; [reflexivity |].
  rewrite for_loop_cons. cbv zeta. cbn [existsb].
  destruct (stop e); [reflexivity |]. cbn [value_of fst orb]. apply IH.
Qed.

(** An invariant of the turns is an invariant of the loop. *)
Lemma for_loop_inv (Inv : World -> Prop) script :
  (forall e w, Inv w -> Inv (world_of (turn e w))) ->
  (forall w, Inv w -> Inv (world_of (deferred w))) ->
  forall w, Inv w -> Inv (world_of (for_loop turn deferred script w)).
Proof.
  intros Ht Hd. induction script as [| e script IH]; intros w Hw; [exact Hw |].
  rewrite for_loop_cons. cbv zeta.
  destruct (stop e); cbn [world_of fst snd]; auto.
Qed.

End ForLoop.

(** *** The listeners *)

Lemma turn_with_run serve e w :
  Part001a.turn_with serve e w =
    if ctx_done e then (STOPPING, w, [EvLog Info "Остановка NTP сервера"])
    else (RUNNING, world_of (Part001a.receive_with serve e w),
          events_of (Part001a.receive_with serve e w)).
Proof.
  unfold Part001a.turn_with. destruct (ctx_done e); [reflexivity |].
  rewrite bind_run. cbv zeta. cbn [mret M_ret value_of world_of events_of fst snd].
  rewrite app_nil_r. reflexivity.
Qed.

Lemma main_go_turn_run e w :
  MainGo.startNTPServer_turn e w =
    if ctx_done e then (STOPPING, w, [EvLog Info "Остановка NTP сервера"])
    else (RUNNING, world_of (MainGo.receive e w), events_of (MainGo.receive e w)).
Proof.
  unfold MainGo.startNTPServer_turn. destruct (ctx_done e); [reflexivity |].
  rewrite bind_run. cbv zeta. cbn [mret M_ret value_of world_of events_of fst snd].
  rewrite app_nil_r. reflexivity.
Qed.

Lemma turn_with_phase serve e w :
  value_of (Part001a.turn_with serve e w) = if ctx_done e then STOPPING else RUNNING.
Proof. rewrite turn_with_run. destruct (ctx_done e); reflexivity. Qed.

Lemma main_go_turn_phase e w :
  value_of (MainGo.startNTPServer_turn e w) = if ctx_done e then STOPPING else RUNNING.
Proof. rewrite main_go_turn_run. destruct (ctx_done e); reflexivity. Qed.


(** The pool stays in order over a receive. *)
Lemma receive_b_pool_ok Decode e w :
  pool_ok w -> pool_ok (world_of (Part001b.receive Decode e w)).
Proof.
  intros Hok.
  destruct (receive_with_borrows (Part001b.serve Decode) e w
              (serve_b_frame Decode) Hok) as (a & it & rest & H).
  apply H.
Qed.

Lemma main_go_pool_ok e w :
  pool_ok w -> pool_ok (world_of (MainGo.receive e w)).
Proof.
  intros Hok. destruct (main_go_borrows e w Hok) as (a & it & rest & H). apply H.
Qed.

Lemma pool_ok_init : pool_ok init.
Proof. split; [apply NoDup_nil_2 | apply Forall_nil_2]. Qed.







End LoopFacts.

(** ** URL escaping *)

Module EscapeFacts.
Import Str.

Ltac each_byte c := destruct c as [[] [] [] [] [] [] [] []].

(** [QueryEscape] works byte by byte. *)
Lemma QueryEscape_cons c s :
  QueryEscape (String c s) = (QueryEscape (String c EmptyString) ++ QueryEscape s)%string.
Proof.
  cbn [QueryEscape].
  destruct (Ascii.eqb c " "); [reflexivity |].
  destruct (shouldEscape c); reflexivity.
Qed.

Lemma chars_app a b : chars (a ++ b) = chars a ++ chars b.
Proof. induction a as [| c a IH]; cbn; [reflexivity | rewrite IH; reflexivity]. Qed.

(** Every byte of an escaped text can stand in a query component. *)
Lemma QueryEscape_bytes s : forallb component_byte (chars (QueryEscape s)) = true.
Proof.
  induction s as [| c s IH]; [reflexivity |].
  rewrite QueryEscape_cons, chars_app, forallb_app, IH, andb_true_r.
  each_byte c; vm_compute; reflexivity.
Qed.

(** A byte that can stand in a query component is none of the bytes that
    give a URL its structure. *)
Lemma component_byte_plain c :
  component_byte c = true -> byte_in c "&=#?/ :@;" = false.
Proof. each_byte c; vm_compute; congruence. Qed.

Lemma QueryEscape_plain s :
  forallb (fun c => negb (byte_in c "&=#?/ :@;")) (chars (QueryEscape s)) = true.
Proof.
  pose proof (QueryEscape_bytes s) as H.
  rewrite forallb_forall in H |- *. intros c Hc.
  rewrite (component_byte_plain c (H c Hc)). reflexivity.
Qed.

(** The receiving side reads the escaped text back as the message. *)
Lemma QueryUnescape_step c s :
  QueryUnescape (QueryEscape (String c s))
  = option_map (String c) (QueryUnescape (QueryEscape s)).
Proof.
  each_byte c; cbn; try reflexivity;
    destruct (QueryUnescape (QueryEscape s)); reflexivity.
Qed.

Lemma QueryUnescape_QueryEscape s : QueryUnescape (QueryEscape s) = Some s.
Proof.
  induction s as [| c s IH]; [reflexivity |].
  rewrite QueryUnescape_step, IH. reflexivity.
Qed.

End EscapeFacts.

(** ** The dispatchers *)

Module DispatcherFacts.
Import Net Sys Obs Codec Str SysFacts Part001Facts MainGoFacts PoolFacts LoopFacts EscapeFacts.

Lemma turn_b_run token chatID e w :
  Part001b.processTelegramMessages_turn token chatID e w
  = turn_outcome (Part001b.sendMessage_url token chatID) e w.
Proof.
  unfold Part001b.processTelegramMessages_turn, turn_outcome, recv_msg.
  destruct (take_done e); [reflexivity |]. run.
  destruct (Chan.recv (msgChan w)) as [[msg ch] |]; [| reflexivity].
  cbn [fst snd]. unfold delivery_log.
  destruct (api_http e) as [| st body]; [reflexivity |].
  destruct (st =? StatusOK); reflexivity.
Qed.

Lemma turn_main_run token chatID e w :
  MainGo.processTelegramMessages_turn token chatID e w
  = turn_outcome (MainGo.sendMessage_url token chatID) e w.
Proof.
  unfold MainGo.processTelegramMessages_turn, turn_outcome, recv_msg.
  destruct (take_done e); [reflexivity |]. run.
  destruct (Chan.recv (msgChan w)) as [[msg ch] |]; [| reflexivity].
  cbn [fst snd]. unfold delivery_log.
  destruct (api_http e) as [| st body]; [reflexivity |].
  destruct (st =? StatusOK); reflexivity.
Qed.

Lemma turn_outcome_phase url e w :
  value_of (turn_outcome url e w) = if take_done e then STOPPING else RUNNING.
Proof.
  unfold turn_outcome. destruct (take_done e); [reflexivity |].
  destruct (Chan.recv (msgChan w)) as [[msg ch] |]; reflexivity.
Qed.

Lemma requested_delivery_log http : requested (delivery_log http) = [].
Proof.
  destruct http as [| st body]; [reflexivity |].
  cbn. destruct (st =? StatusOK); reflexivity.
Qed.

(** A dispatcher requests the URL of every message for which it has a
    turn before it stops, whatever the API answered before. *)
Lemma dispatcher_requests url turn script :
  (forall e w, turn e w = turn_outcome url e w) ->
  forall w,
    requested (events_of (for_loop turn skip script w))
    = map url (take (length (until take_done script)) (queued w)).
Proof.
  intros Hturn.
  assert (Hph : forall e w, value_of (turn e w) = if take_done e then STOPPING else RUNNING).
  { intros e w. rewrite Hturn. apply turn_outcome_phase. }
  induction script as [| e script IH]; intros w; [reflexivity |].
  rewrite (for_loop_cons _ _ take_done Hph). cbv zeta. rewrite Hturn.
  unfold turn_outcome. cbn [until].
  destruct (take_done e); [reflexivity |].
  unfold queued, Chan.recv. destruct (Chan.buf (msgChan w)) as [| msg rest] eqn:Hq.
  - cbn [world_of events_of fst snd app]. rewrite IH. unfold queued. rewrite Hq.
    rewrite !take_nil. reflexivity.
  - cbn [world_of events_of fst snd]. rewrite requested_app.
    cbn [requested omap list_omap app]. fold (requested (delivery_log (api_http e))).
    rewrite requested_delivery_log, IH. reflexivity.
Qed.


End DispatcherFacts.

(** ** The loops and the queue, end to end *)

Module ClaimFacts.
Import Net Sys Obs Codec Str SysFacts Part001Facts MainGoFacts PoolFacts LoopFacts EscapeFacts DispatcherFacts.

Lemma append_nil_r (s : string) : (s ++ EmptyString)%string = s.
Proof. induction s as [| c s IH]; cbn; [reflexivity | rewrite IH; reflexivity]. Qed.

Lemma sendMessage_url_b token chatID msg :
  Part001b.sendMessage_url token chatID msg
  = (sendMessage_base token chatID ++ QueryEscape msg)%string.
Proof.
  unfold Part001b.sendMessage_url, sendMessage_base. cbn.
  repeat (rewrite append_assoc; cbn). rewrite append_nil_r. reflexivity.
Qed.

Lemma sendMessage_url_main token chatID msg :
  MainGo.sendMessage_url token chatID msg
  = (sendMessage_base token chatID ++ msg)%string.
Proof.
  unfold MainGo.sendMessage_url, sendMessage_base. cbn.
  repeat (rewrite append_assoc; cbn). rewrite append_nil_r. reflexivity.
Qed.

(** In the second file of part_001 the text of every message taken from
    the queue is escaped before it is put in the URL: the URL requested
    is the fixed part followed by [QueryEscape msg], whose bytes are
    unreserved characters, [%] and [+] only, and which reads back as the
    message. *)
Lemma escaped_before_embedding token chatID e w msg rest :
  take_done e = false -> queued w = msg :: rest ->
  requested (events_of (Part001b.processTelegramMessages_turn token chatID e w))
  = [(sendMessage_base token chatID ++ QueryEscape msg)%string]
  /\ forallb component_byte (chars (QueryEscape msg)) = true
  /\ forallb (fun c => negb (byte_in c "&=#?/ :@;")) (chars (QueryEscape msg)) = true
  /\ QueryUnescape (QueryEscape msg) = Some msg.
Proof.
  intros Hd Hq. rewrite turn_b_run. unfold turn_outcome, Chan.recv.
  unfold queued in Hq. rewrite Hd, Hq. cbn [events_of snd].
  change (requested (?a :: ?l)) with (requested ([a] ++ l)).
  rewrite requested_app, requested_delivery_log, sendMessage_url_b.
  split; [reflexivity |]. split; [apply QueryEscape_bytes |].
  split; [apply QueryEscape_plain | apply QueryUnescape_QueryEscape].
Qed.

(** C7 on main.go: the text of a message is put in the URL as it is.
    The alert that main.go's own listener queues for a client goes out
    with its spaces, its colons and its bytes above 127; a text with [&],
    [=] and [#] adds a parameter and a fragment to the URL.  (The first
    file of part_001 has the same dispatcher.) *)
Theorem main_go_embeds_raw_text :
  let own := plain_alert Sample.client in
  let turn msg :=
    MainGo.processTelegramMessages_turn "T" "C" Sample.deliver (Sample.waiting [msg]) in
  requested (events_of (turn own))
    = ["https://api.telegram.org/botT/sendMessage?chat_id=C&text=Синхронизация NTP с клиентом: 192.0.2.7:40123"%string]
  /\ forallb component_byte (chars own) = false
  /\ QueryEscape own <> own
  /\ requested (events_of (turn Sample.tricky))
     = ["https://api.telegram.org/botT/sendMessage?chat_id=C&text=a&chat_id=1#x y"%string]
  /\ (forall token chatID msg,
        MainGo.sendMessage_url token chatID msg
        = (sendMessage_base token chatID ++ msg)%string).
Proof.
  cbv zeta. split; [vm_compute; reflexivity |]. split; [vm_compute; reflexivity |].
  split; [vm_compute; discriminate |]. split; [vm_compute; reflexivity |].
  apply sendMessage_url_main.
Qed.

(** Each receive of part_001 checks out one buffer. *)
Lemma receive_with_checkouts serve e w :
  (forall e from, pool_frame (serve e from)) ->
  length (checked_out (events_of (Part001a.receive_with serve e w))) = 1%nat.
Proof.
  intros Hfr.
  destruct (Get_buf_obs (pool_choice e) w) as (_ & _ & _ & Hev).
  destruct (receive_with_shape serve e w Hfr) as (W & mid & Hrun & _ & _ & Hc & _).
  rewrite Hrun, Hev. cbn [events_of snd].
  rewrite !checked_out_app, Hc. reflexivity.
Qed.

Lemma listener_checkouts serve script :
  (forall e from, pool_frame (serve e from)) ->
  forall w,
    length (checked_out (events_of (Part001a.loop_with serve script w)))
    = length (until ctx_done script).
Proof.
  intros Hfr. unfold Part001a.loop_with.
  induction script as [| e script IH]; intros w; [reflexivity |].
  rewrite (for_loop_cons _ _ ctx_done (turn_with_phase _)). cbv zeta.
  rewrite turn_with_run. cbn [until].
  destruct (ctx_done e); [reflexivity |].
  cbn [world_of events_of fst snd]. rewrite checked_out_app, length_app, IH.
  rewrite receive_with_checkouts by exact Hfr. reflexivity.
Qed.

(** C8: a turn of either loop of the second file of part_001 leaves the
    loop running unless it finds the context cancelled, whatever was
    read, sent, looked up, queued or delivered in it; the loop has
    returned exactly when some turn found the context cancelled; the
    listener runs every turn before that one (each checks out its
    buffer), and the dispatcher requests the URL of every queued message
    it has a turn for before that one. *)
Theorem loops_stop_on_cancellation_only Decode token chatID :
  (forall e w,
     value_of (Part001b.startNTPServer_turn Decode e w)
     = if ctx_done e then STOPPING else RUNNING)
  /\ (forall script w,
        value_of (Part001b.startNTPServer Decode script w)
        = if existsb ctx_done script then STOPPED else RUNNING)
  /\ (forall script w,
        length (checked_out (events_of (Part001b.startNTPServer Decode script w)))
        = length (until ctx_done script))
  /\ (forall e w,
        value_of (Part001b.processTelegramMessages_turn token chatID e w)
        = if take_done e then STOPPING else RUNNING)
  /\ (forall script w,
        value_of (Part001b.processTelegramMessages token chatID script w)
        = if existsb take_done script then STOPPED else RUNNING)
  /\ (forall script w,
        requested (events_of (Part001b.processTelegramMessages token chatID script w))
        = map (Part001b.sendMessage_url token chatID)
            (take (length (until take_done script)) (queued w))).
Proof.
  split; [intros; apply turn_with_phase |].
  split; [intros; apply (for_loop_phase _ _ ctx_done (turn_with_phase _)) |].
  split; [intros; apply listener_checkouts, serve_b_frame |].
  assert (Hph : forall e w,
    value_of (Part001b.processTelegramMessages_turn token chatID e w)
    = if take_done e then STOPPING else RUNNING).
  { intros e w. rewrite turn_b_run. apply turn_outcome_phase. }
  split; [exact Hph |].
  split; [intros; apply (for_loop_phase _ _ take_done Hph) |].
  intros script w. apply dispatcher_requests. apply turn_b_run.
Qed.


(** C9: from a pool in order, a receive of main.go and a receive of the
    second file of part_001 each check one array out of the pool and give
    the same array back, whatever is read; while the array is out the
    pool does not hold it, so no other checkout can yield it; a checkout
    that reuses a stored item hands out the array of that item and
    allocates nothing; and the pool is in order after every run of the
    listeners. *)
Theorem buffer_borrowed_and_returned Decode e w :
  pool_ok w ->
  borrows (pool_choice e) w (MainGo.receive e w)
  /\ borrows (pool_choice e) w (Part001b.receive Decode e w)
  /\ (forall script,
        pool_ok (world_of (MainGo.startNTPServer script init))
        /\ pool_ok (world_of (Part001b.startNTPServer Decode script init))).
Proof.
  intros Hok.
  split; [apply main_go_borrows, Hok |].
  split; [apply receive_with_borrows; [apply serve_b_frame | exact Hok] |].
  intros script. split.
  - apply (for_loop_inv _ _ ctx_done main_go_turn_phase pool_ok);
      [| intros w' H; exact H | apply pool_ok_init].
    intros e' w' H. rewrite main_go_turn_run.
    destruct (ctx_done e'); [exact H | apply main_go_pool_ok, H].
  - apply (for_loop_inv _ _ ctx_done (turn_with_phase _) pool_ok);
      [| intros w' H; exact H | apply pool_ok_init].
    intros e' w' H. rewrite turn_with_run.
    destruct (ctx_done e'); [exact H | apply receive_b_pool_ok, H].
Qed.


(** *** The theorems at sample inputs *)

Lemma reply_regardless_witness :
  let e := Sample.turn (ReadOk Sample.request Sample.client) in
  pool_ok init
  /\ read e = ReadOk Sample.request Sample.client
  /\ length Sample.request = 48%nat /\ mode_of Sample.request = 3
  /\ replies (events_of (Part001b.receive Sample.no_decode e init))
     = [(makeNTPResponse Sample.clock, Sample.client)].
Proof.
  cbv zeta.
  assert (Hok : pool_ok init) by (split; [apply NoDup_nil_2 | apply Forall_nil_2]).
  split; [exact Hok |]. split; [reflexivity |].
  split; [reflexivity |]. split; [reflexivity |].
  exact (proj1 (Part001Facts.reply_regardless Sample.no_decode
                  (Sample.turn (ReadOk Sample.request Sample.client)) init
                  Sample.request Sample.client Hok eq_refl eq_refl eq_refl)).
Defined.

Lemma lookup_failure_alert_witness :
  let e := Sample.turn (ReadOk Sample.request Sample.client) in
  pool_ok init
  /\ read e = ReadOk Sample.request Sample.client
  /\ well_formed (read e) = true
  /\ snd (value_of (Part001b.getGeoIP Sample.no_decode (geo_http e) "192.0.2.7" init))
     <> None
  /\ queued (world_of (Part001b.receive Sample.no_decode e init))
     = ["Синхронизация NTP с клиентом: 192.0.2.7 (геолокация не определена)"%string].
Proof.
  cbv zeta.
  assert (Hok : pool_ok init) by (split; [apply NoDup_nil_2 | apply Forall_nil_2]).
  assert (Hfail : snd (value_of (Part001b.getGeoIP Sample.no_decode
                                   (geo_http (Sample.turn (ReadOk Sample.request Sample.client)))
                                   "192.0.2.7" init)) <> None)
    by (vm_compute; discriminate).
  split; [exact Hok |]. split; [reflexivity |]. split; [reflexivity |].
  split; [exact Hfail |].
  pose proof (Part001Facts.lookup_failure_alert Sample.no_decode
                (Sample.turn (ReadOk Sample.request Sample.client)) init
                Sample.request Sample.client Hok eq_refl eq_refl) as H.
  cbv zeta in H. destruct H as [_ H].
  destruct (H Hfail) as (_ & _ & _ & Hroom).
  apply Hroom. cbn. lia.
Defined.

Lemma buffer_borrowed_and_returned_witness :
  let e := Sample.turn ReadErr in
  pool_ok init
  /\ borrows (pool_choice e) init (MainGo.receive e init)
  /\ borrows (pool_choice e) init (Part001b.receive Sample.no_decode e init).
Proof.
  cbv zeta.
  assert (Hok : pool_ok init) by (split; [apply NoDup_nil_2 | apply Forall_nil_2]).
  split; [exact Hok |].
  destruct (buffer_borrowed_and_returned Sample.no_decode (Sample.turn ReadErr) init Hok)
    as (Hm & Hb & _).
  split; [exact Hm | exact Hb].
Defined.

End ClaimFacts.

(** ** [main] and the two loops side by side *)

Module MainFacts.
Import Net Sys Obs Codec Str Main Trace.
Import SysFacts Part001Facts MainGoFacts PoolFacts LoopFacts EscapeFacts DispatcherFacts.









(** X3: the README's [docker run] line sets TELEGRAM_BOT_TOKEN,
    TELEGRAM_ADMIN_ID and NTP_PORT.  Added to an environment in which
    TELEGRAM_TOKEN or TELEGRAM_CHAT_ID is missing or empty, they leave
    [main] ending in [logger.Fatal], whatever their values. *)
Theorem readme_docker_run_is_fatal token admin port (base : Env) :
  Getenv base "TELEGRAM_TOKEN" = EmptyString
  \/ Getenv base "TELEGRAM_CHAT_ID" = EmptyString ->
  exists msg, main (readme_env token admin port base) = Fatal msg.
Proof.
  intros H. unfold main, load_config, readme_env, Getenv, Setenv in *. cbn.
  destruct (is_empty port); [eexists; reflexivity |].
  destruct H as [-> | ->]; cbn; [eexists; reflexivity |].
  destruct (is_empty _); eexists; reflexivity.
Qed.

Lemma readme_docker_run_is_fatal_witness :
  Getenv no_env "TELEGRAM_TOKEN" = EmptyString
  /\ exists msg, main (readme_env "123:abc" "42" "123" no_env) = Fatal msg.
Proof.
  split; [reflexivity |].
  apply (readme_docker_run_is_fatal "123:abc" "42" "123" no_env).
  left. reflexivity.
Defined.


(** *** The two loops under a schedule *)

Lemma offer_buf ch msg :
  Chan.buf (fst (Chan.offer ch msg))
  = Chan.buf ch ++ (if snd (Chan.offer ch msg) then [msg] else []).
Proof.
  unfold Chan.offer, Chan.send. destruct (_ <? _)%nat; cbn; [reflexivity |].
  rewrite app_nil_r. reflexivity.
Qed.

Lemma emit_run ev w : emit ev w = (tt, w, [ev]).
Proof. reflexivity. Qed.

Ltac triple :=
  repeat first
    [ progress change (world_of (?a, ?x, ?y)) with x
    | progress change (events_of (?a, ?x, ?y)) with y
    | progress change (value_of (?a, ?x, ?y)) with a
    | progress cbn [world listener dispatcher heard told] ].

Section Schedule.
Variable listen : ListenerEnv -> M Phase.
Variable dispatch : DispatcherEnv -> M Phase.
Variable url : string -> string.
Hypothesis listen_balanced : balanced listen.
Hypothesis dispatch_run : forall e w, dispatch e w = turn_outcome url e w.

Lemma listen_phase e w :
  pool_ok w -> value_of (listen e w) = if ctx_done e then STOPPING else RUNNING.
Proof. intros Hok. apply (listen_balanced e w Hok). Qed.

Lemma one_turn {E} (turn : E -> M Phase) deferred e w :
  for_loop turn deferred [e] w =
    let t := turn e w in
    match value_of t with
    | RUNNING => (RUNNING, world_of t, events_of t)
    | _ => (STOPPED, world_of (deferred (world_of t)),
            events_of t ++ events_of (deferred (world_of t)))
    end.
Proof.
  cbn [for_loop]. rewrite bind_run. cbv zeta.
  destruct (value_of (turn e w)).
  - cbn. rewrite app_nil_r. reflexivity.
  - rewrite bind_run. cbv zeta. cbn. rewrite app_nil_r. reflexivity.
  - rewrite bind_run. cbv zeta. cbn. rewrite app_nil_r. reflexivity.
Qed.

Lemma step_accounts s x :
  accounts url s -> accounts url (step listen dispatch s x).
Proof.
  intros Hs. pose proof Hs as (Hok & Hcap & Hlen & sent & Hreq & Henq).
  destruct x as [e | e]; cbn [step].
  - destruct (listener s); [unfold accounts | exact Hs | exact Hs].
    rewrite one_turn. cbv zeta.
    destruct (listen_balanced e (world s) Hok) as (Hok' & Hcap' & Hlen' & Hq & Hph).
    rewrite Hph. destruct (ctx_done e).
    + rewrite emit_run. triple. cbn [world heard told].
      split; [exact Hok' |]. split; [congruence |].
      split; [rewrite Hcap in Hlen'; auto |].
      exists sent. split; [exact Hreq |].
      rewrite !enqueued_app, Henq, Hq. cbn. rewrite !app_nil_r, app_assoc. reflexivity.
    + triple. cbn [world heard told].
      split; [exact Hok' |]. split; [congruence |].
      split; [rewrite Hcap in Hlen'; auto |].
      exists sent. split; [exact Hreq |].
      rewrite !enqueued_app, Henq, Hq, app_assoc. reflexivity.
  - destruct (dispatcher s); [unfold accounts | exact Hs | exact Hs].
    rewrite one_turn. cbv zeta. rewrite dispatch_run.
    unfold turn_outcome. destruct (take_done e).
    + triple. change (skip ?w) with (tt, w, @nil Event). triple.
      cbn [world heard told].
      split; [exact Hok |]. split; [exact Hcap |]. split; [exact Hlen |].
      exists sent. split; [| exact Henq].
      rewrite !requested_app. cbn. rewrite !app_nil_r. exact Hreq.
    + unfold queued, Chan.recv in *.
      destruct (Chan.buf (msgChan (world s))) as [| msg rest] eqn:Hbuf.
      * triple. cbn [world heard told].
        rewrite Hbuf. split; [exact Hok |]. split; [exact Hcap |].
        split; [exact Hlen |]. exists sent. rewrite app_nil_r. split; assumption.
      * triple. cbn [world heard told msgChan Chan.buf Chan.cap].
        split; [exact Hok |]. split; [exact Hcap |].
        split; [cbn in Hlen; lia |].
        exists (sent ++ [msg]). rewrite requested_app, map_app, Hreq.
        change (requested (?a :: ?l)) with (requested ([a] ++ l)).
        rewrite requested_app, requested_delivery_log, Henq, <- app_assoc.
        split; reflexivity.
Qed.

Lemma run_accounts schedule : forall s,
  accounts url s -> accounts url (run listen dispatch schedule s).
Proof.
  induction schedule as [| x schedule IH]; intros s Hs; [exact Hs |].
  cbn [run fold_left]. apply IH, step_accounts, Hs.
Qed.

End Schedule.

Lemma accounts_started url : accounts url (started init).
Proof.
  split; [apply pool_ok_init |]. split; [reflexivity |]. split; [cbn; lia |].
  exists []. split; reflexivity.
Qed.


Lemma Get_msgChan c w : msgChan (world_of (Get c New w)) = msgChan w.
Proof.
  destruct (hit c (found c (pool w))) as [[i it] |] eqn:Hh.
  - rewrite (Get_hit _ _ _ _ Hh). reflexivity.
  - rewrite (Get_miss _ _ Hh). reflexivity.
Qed.

Lemma offer_balance ch msg :
  Chan.cap (fst (Chan.offer ch msg)) = Chan.cap ch
  /\ (length (Chan.buf ch) <= Chan.cap ch ->
      length (Chan.buf (fst (Chan.offer ch msg))) <= Chan.cap ch)%nat
  /\ Chan.buf (fst (Chan.offer ch msg))
     = Chan.buf ch ++ (if snd (Chan.offer ch msg) then [msg] else []).
Proof.
  split; [apply ChanFacts.offer_cap |].
  split; [apply ChanFacts.offer_bounded | apply offer_buf].
Qed.

Lemma listener_b_balanced Decode : balanced (Part001b.startNTPServer_turn Decode).
Proof.
  intros e w Hok. cbv zeta. unfold Part001b.startNTPServer_turn.
  rewrite turn_with_run. destruct (ctx_done e).
  - triple. unfold queued. cbn. rewrite app_nil_r. auto.
  - triple. fold (Part001b.receive Decode e w).
    split; [apply receive_b_pool_ok, Hok |].
    assert (forall A B C : Prop, (A /\ B /\ C) -> A /\ B /\ C /\ RUNNING = RUNNING) as Hx
      by tauto.
    apply Hx. clear Hx. unfold queued.
    destruct (well_formed (read e)) eqn:Hwf.
    + destruct (read e) as [| payload from] eqn:Hrd; [discriminate |].
      rewrite <- Hrd in Hwf.
      destruct (receive_with_valid (Part001b.serve Decode) e w payload from Hok Hrd Hwf)
        as (p & buf & w2 & Hrun & _ & Hch).
      unfold Part001b.receive. rewrite Hrun. triple. rewrite Put_msgChan.
      destruct (serve_b_obs Decode e from w2) as (Hq & _ & He & _).
      rewrite !enqueued_app, He, Hq, Hch. cbn [enqueued omap list_omap app].
      rewrite app_nil_r. apply offer_balance.
    + destruct (validated_b Decode e w Hok) as (_ & H).
      destruct (H Hwf) as (_ & He & Hch). rewrite He, Hch, app_nil_r. auto.
Qed.

Lemma listener_main_balanced : balanced MainGo.startNTPServer_turn.
Proof.
  intros e w Hok. cbv zeta. rewrite main_go_turn_run. destruct (ctx_done e).
  - triple. unfold queued. cbn. rewrite app_nil_r. auto.
  - triple. split; [apply main_go_pool_ok, Hok |].
    assert (forall A B C : Prop, (A /\ B /\ C) -> A /\ B /\ C /\ RUNNING = RUNNING) as Hx
      by tauto.
    apply Hx. clear Hx. unfold queued.
    rewrite receive_run. cbv zeta. rewrite Get_events.
    destruct (read e) as [| payload from].
    + rewrite Put_slice_run. cbv zeta. triple. cbn [msgChan ReadFromUDP].
      unfold mret, M_ret. triple. rewrite Get_msgChan. cbn. rewrite app_nil_r. auto.
    + rewrite ReadFromUDP_ok. triple. set (w2 := {| heap := _ |}).
      rewrite Put_slice_run. cbv zeta. triple. cbn [msgChan].
      destruct (offer_msg_obs (plain_alert from) w2) as (Hch & _ & _ & He).
      rewrite !enqueued_app, He, Hch.
      assert (Hw2 : msgChan w2 = msgChan w) by (subst w2; cbn; apply Get_msgChan).
      rewrite Hw2.
      replace (enqueued (if (0 <? length payload)%nat
                         then [EvWriteToUDP (makeNTPResponse (now e)) from]
                                ++ (if write_ok e then []
                                    else [EvLog Warn "Ошибка отправки ответа клиенту"])
                         else [])) with (@nil string)
        by (destruct (0 <? length payload)%nat; destruct (write_ok e); reflexivity).
      cbn [enqueued omap list_omap app]. rewrite app_nil_r. apply offer_balance.
Qed.

(** X4: the program of the second file of part_001, under every
    schedule of listener and dispatcher turns and every answer of the
    outside: either [main] ended in [logger.Fatal], or the pool is in
    order, the queue holds at most 100 messages, and the messages whose
    URLs the dispatcher has requested (built with the token and the chat
    id of the environment), followed by the messages waiting, are the
    messages the listener enqueued, in order. *)
Theorem schedule_accounts_b Decode (env : Env) (schedule : list Step) :
  match program_b Decode env schedule with
  | Some s =>
      let config := load_config env in
      accounts (Part001b.sendMessage_url (TelegramToken config) (TelegramChatID config)) s
  | None => exists msg, main env = Fatal msg
  end.
Proof.
  unfold program_b. destruct (main env) as [msg | config w] eqn:Hm; [eauto |].
  unfold main in Hm.
  destruct (_ || _); [discriminate |]. injection Hm as <- <-. cbv zeta.
  apply (run_accounts _ _ _ (listener_b_balanced Decode)
           (fun e w => turn_b_run _ _ e w)), accounts_started.
Qed.

(** X6: the same accounts for the program of main.go. *)
Theorem schedule_accounts_main (env : Env) (schedule : list Step) :
  match program_main env schedule with
  | Some s =>
      let config := load_config env in
      accounts (MainGo.sendMessage_url (TelegramToken config) (TelegramChatID config)) s
  | None => exists msg, main env = Fatal msg
  end.
Proof.
  unfold program_main. destruct (main env) as [msg | config w] eqn:Hm; [eauto |].
  unfold main in Hm.
  destruct (_ || _); [discriminate |]. injection Hm as <- <-. cbv zeta.
  apply (run_accounts _ _ _ listener_main_balanced
           (fun e w => turn_main_run _ _ e w)), accounts_started.
Qed.


Lemma listener_a_balanced : balanced Part001a.startNTPServer_turn.
Proof.
  intros e w Hok. cbv zeta. unfold Part001a.startNTPServer_turn.
  rewrite turn_with_run. destruct (ctx_done e).
  - triple. unfold queued. cbn. rewrite app_nil_r. auto.
  - triple. fold (Part001a.receive e w).
    split.
    { destruct (receive_with_borrows Part001a.serve e w serve_a_frame Hok)
        as (a & it & rest & H). apply H. }
    assert (forall A B C : Prop, (A /\ B /\ C) -> A /\ B /\ C /\ RUNNING = RUNNING) as Hx
      by tauto.
    apply Hx. clear Hx. unfold queued.
    destruct (well_formed (read e)) eqn:Hwf.
    + destruct (read e) as [| payload from] eqn:Hrd; [discriminate |].
      rewrite <- Hrd in Hwf.
      destruct (receive_with_valid Part001a.serve e w payload from Hok Hrd Hwf)
        as (p & buf & w2 & Hrun & _ & Hch).
      unfold Part001a.receive. rewrite Hrun. triple. rewrite Put_msgChan.
      destruct (serve_a_obs e from w2) as (Hq & _ & He).
      rewrite !enqueued_app, He, Hq, Hch. cbn [enqueued omap list_omap app].
      rewrite app_nil_r. apply offer_balance.
    + destruct (validated_a e w Hok) as (_ & H).
      destruct (H Hwf) as (_ & He & Hch). rewrite He, Hch, app_nil_r. auto.
Qed.

(** X5: the same accounts for the program of the first file of
    part_001. *)
Theorem schedule_accounts_a (env : Env) (schedule : list Step) :
  match program_a env schedule with
  | Some s =>
      let config := load_config env in
      accounts (MainGo.sendMessage_url (TelegramToken config) (TelegramChatID config)) s
  | None => exists msg, main env = Fatal msg
  end.
Proof.
  unfold program_a. destruct (main env) as [msg | config w] eqn:Hm; [eauto |].
  unfold main in Hm.
  destruct (_ || _); [discriminate |]. injection Hm as <- <-. cbv zeta.
  apply (run_accounts _ _ _ listener_a_balanced
           (fun e w => turn_main_run _ _ e w)), accounts_started.
Qed.

End MainFacts.

(** ** More on the listeners and the dispatchers *)

Module ListenerFacts.
Import Net Sys Obs Codec Str Main Trace.
Import SysFacts Part001Facts MainGoFacts PoolFacts LoopFacts EscapeFacts DispatcherFacts MainFacts.




(** X8: a receive of main.go.  After a read error: no reply, no
    alert, one warning.  After any successful read: an alert with the
    sender's address is offered to the queue, also for an empty
    datagram; a reply is written unless the datagram is empty; size and
    mode are not looked at. *)
Theorem main_go_serves_every_read e w :
  let r := MainGo.receive e w in
  match read e with
  | ReadErr =>
      replies (events_of r) = [] /\ enqueued (events_of r) = []
      /\ requested (events_of r) = [] /\ msgChan (world_of r) = msgChan w
      /\ logged (events_of r) = [(Warn, "Ошибка чтения UDP"%string)]
  | ReadOk payload from =>
      replies (events_of r)
        = match payload with
          | [] => []
          | _ :: _ => [(makeNTPResponse (now e), from)]
          end
      /\ requested (events_of r) = []
      /\ msgChan (world_of r) = fst (Chan.offer (msgChan w) (plain_alert from))
      /\ enqueued (events_of r)
         = (if snd (Chan.offer (msgChan w) (plain_alert from))
            then [plain_alert from] else [])
  end.
Proof.
  cbv zeta. rewrite receive_run. cbv zeta. rewrite Get_events.
  destruct (read e) as [| payload from].
  - rewrite Put_slice_run. cbv zeta. triple. cbn [ReadFromUDP]. unfold mret, M_ret.
    triple. cbn [msgChan]. rewrite Get_msgChan. repeat split.
  - rewrite ReadFromUDP_ok. triple. set (w2 := {| heap := _ |}).
    rewrite Put_slice_run. cbv zeta. triple. cbn [msgChan].
    assert (Hw2 : msgChan w2 = msgChan w) by (subst w2; cbn; apply Get_msgChan).
    destruct (offer_msg_obs (plain_alert from) w2) as (Hch & Hr & Hq & He).
    rewrite Hw2 in Hch, He.
    rewrite !replies_app, !requested_app, !enqueued_app, Hr, Hq, He, Hch.
    destruct payload as [| b payload]; cbn [length Nat.ltb Nat.leb];
      destruct (write_ok e); cbn; rewrite ?app_nil_r; repeat split.
Qed.

Lemma reply_not_well_formed t from : well_formed (ReadOk (makeNTPResponse t) from) = false.
Proof. reflexivity. Qed.

(** X9: a reply of [makeNTPResponse] read as a datagram.  Both files
    of part_001 write nothing back and raise no alert (its mode is 4);
    main.go answers it with a reply. *)
Theorem replies_to_replies Decode e w t from :
  pool_ok w -> read e = ReadOk (makeNTPResponse t) from ->
  replies (events_of (Part001a.receive e w)) = []
  /\ enqueued (events_of (Part001a.receive e w)) = []
  /\ replies (events_of (Part001b.receive Decode e w)) = []
  /\ enqueued (events_of (Part001b.receive Decode e w)) = []
  /\ replies (events_of (MainGo.receive e w)) = [(makeNTPResponse (now e), from)].
Proof.
  intros Hok Hrd.
  assert (Hwf : well_formed (read e) = false) by (rewrite Hrd; apply reply_not_well_formed).
  destruct (validated_a e w Hok) as (_ & Ha). destruct (Ha Hwf) as (Ha1 & Ha2 & _).
  destruct (validated_b Decode e w Hok) as (_ & Hb). destruct (Hb Hwf) as (Hb1 & Hb2 & _).
  destruct (main_go_receive_obs e w _ from Hrd) as (Hm & _).
  repeat split; assumption.
Qed.

(** X10: over a run of the dispatcher of the second file of part_001
    the URLs requested are, in queue order, the fixed part followed by
    [QueryEscape] of each message it had a turn for; an escaped text has
    only unreserved bytes, [%] and [+], none of the bytes that structure
    a URL, and reads back as the message. *)
Theorem dispatcher_b_requests_escaped token chatID script w :
  requested (events_of (Part001b.processTelegramMessages token chatID script w))
  = map (fun msg => (sendMessage_base token chatID ++ QueryEscape msg)%string)
      (take (length (until take_done script)) (queued w))
  /\ (forall msg,
        forallb component_byte (chars (QueryEscape msg)) = true
        /\ forallb (fun c => negb (byte_in c "&=#?/ :@;")) (chars (QueryEscape msg)) = true
        /\ QueryUnescape (QueryEscape msg) = Some msg).
Proof.
  split.
  - unfold Part001b.processTelegramMessages.
    rewrite (dispatcher_requests (Part001b.sendMessage_url token chatID))
      by (intros; apply turn_b_run).
    apply map_ext. intros msg. apply ClaimFacts.sendMessage_url_b.
  - intros msg. split; [apply QueryEscape_bytes |].
    split; [apply QueryEscape_plain | apply QueryUnescape_QueryEscape].
Qed.

(** A dispatcher takes one message from the queue in each turn it has
    before it stops, and touches nothing else. *)
Lemma dispatcher_drains url turn script :
  (forall e w, turn e w = turn_outcome url e w) ->
  forall w,
    let r := for_loop turn skip script w in
    queued (world_of r) = drop (length (until take_done script)) (queued w)
    /\ Chan.cap (msgChan (world_of r)) = Chan.cap (msgChan w)
    /\ heap (world_of r) = heap w /\ pool (world_of r) = pool w
    /\ hdrs (world_of r) = hdrs w
    /\ replies (events_of r) = [] /\ enqueued (events_of r) = [].
Proof.
  intros Hturn.
  assert (Hph : forall e w, value_of (turn e w) = if take_done e then STOPPING else RUNNING).
  { intros e w. rewrite Hturn. apply turn_outcome_phase. }
  induction script as [| e script IH]; intros w; cbv zeta; [repeat split |].
  rewrite (for_loop_cons _ _ take_done Hph). cbv zeta. rewrite Hturn.
  unfold turn_outcome. cbn [until].
  destruct (take_done e); [repeat split |].
  unfold queued, Chan.recv in *.
  destruct (Chan.buf (msgChan w)) as [| msg rest] eqn:Hq.
  - triple. destruct (IH w) as (H1 & H2 & H3 & H4 & H5 & H6 & H7).
    rewrite H1, Hq, !drop_nil. repeat split; assumption.
  - triple. cbn [length drop].
    match goal with |- context [for_loop turn skip script ?w'] =>
      destruct (IH w') as (H1 & H2 & H3 & H4 & H5 & H6 & H7) end.
    rewrite H1, H2, H3, H4, H5, replies_app, enqueued_app, H6, H7.
    cbn [msgChan Chan.buf Chan.cap heap pool hdrs].
    assert (replies (delivery_log (api_http e)) = []
            /\ enqueued (delivery_log (api_http e)) = []) as [Hr He].
    { destruct (api_http e) as [| st body]; [split; reflexivity |].
      cbn. destruct (st =? StatusOK); split; reflexivity. }
    change (replies (?a :: ?l)) with (replies ([a] ++ l)).
    change (enqueued (?a :: ?l)) with (enqueued ([a] ++ l)).
    rewrite replies_app, enqueued_app, Hr, He. repeat split.
Qed.

(** X11: both dispatchers take one message from the queue in each
    turn they have before they stop and request its URL once, whatever
    the API answers: after the run the queue is what was left, a failed
    delivery is not put back, and the pool, the arrays and the socket are
    not touched. *)
Theorem dispatcher_no_retry token chatID script w :
  let k := length (until take_done script) in
  let rb := Part001b.processTelegramMessages token chatID script w in
  let rm := MainGo.processTelegramMessages token chatID script w in
  queued (world_of rb) = drop k (queued w)
  /\ queued (world_of rm) = drop k (queued w)
  /\ length (requested (events_of rb)) = Nat.min k (length (queued w))
  /\ length (requested (events_of rm)) = Nat.min k (length (queued w))
  /\ heap (world_of rb) = heap w /\ pool (world_of rb) = pool w
  /\ heap (world_of rm) = heap w /\ pool (world_of rm) = pool w
  /\ replies (events_of rb) = [] /\ replies (events_of rm) = [].
Proof.
  cbv zeta. unfold Part001b.processTelegramMessages, MainGo.processTelegramMessages.
  destruct (dispatcher_drains (Part001b.sendMessage_url token chatID)
              (Part001b.processTelegramMessages_turn token chatID) script
              (fun e w => turn_b_run token chatID e w) w)
    as (B1 & _ & B3 & B4 & _ & B6 & _).
  destruct (dispatcher_drains (MainGo.sendMessage_url token chatID)
              (MainGo.processTelegramMessages_turn token chatID) script
              (fun e w => turn_main_run token chatID e w) w)
    as (M1 & _ & M3 & M4 & _ & M6 & _).
  rewrite (dispatcher_requests (Part001b.sendMessage_url token chatID))
    by (intros; apply turn_b_run).
  rewrite (dispatcher_requests (MainGo.sendMessage_url token chatID))
    by (intros; apply turn_main_run).
  rewrite !length_map, !length_take. repeat split; assumption.
Qed.


Lemma logged_app a b : logged (a ++ b) = logged a ++ logged b.
Proof. apply omap_app. Qed.

(** X15: a request read by the second file of part_001 with the pool
    in order.  The reply is written and the lookup is made in every
    case.  With room in the queue the alert is appended and nothing is
    logged about the queue; with the queue full the alert is not
    enqueued, the queue is as it was, and the last log entry is the
    warning that the message was dropped. *)
Theorem full_queue_drops_alert_only Decode e w payload from :
  pool_ok w -> read e = ReadOk payload from -> well_formed (read e) = true ->
  let r := Part001b.receive Decode e w in
  let msg := alert Decode e from in
  let before :=
    (if write_ok e then [] else [(Warn, "Ошибка отправки ответа клиенту"%string)])
    ++ match snd (lookup_outcome Decode (geo_http e) (IP_String from)) with
       | Some _ => [(Warn, "Ошибка получения геолокационных данных"%string)]
       | None => []
       end in
  replies (events_of r) = [(makeNTPResponse (now e), from)]
  /\ requested (events_of r) = [Part001b.geo_url (IP_String from)]
  /\ if (length (queued w) <? Chan.cap (msgChan w))%nat then
       enqueued (events_of r) = [msg]
       /\ queued (world_of r) = queued w ++ [msg]
       /\ logged (events_of r) = before
     else
       enqueued (events_of r) = []
       /\ msgChan (world_of r) = msgChan w
       /\ logged (events_of r)
          = before ++ [(Warn, "Очередь сообщений переполнена, сообщение отброшено"%string)].
Proof.
  intros Hok Hrd Hwf. cbv zeta.
  destruct (receive_with_valid (Part001b.serve Decode) e w payload from Hok Hrd Hwf)
    as (p & buf & w2 & Hrun & _ & Hch).
  unfold Part001b.receive. rewrite Hrun. triple. rewrite Put_msgChan.
  destruct (serve_b_obs Decode e from w2) as (Hq & Hr & He & Hg & _).
  rewrite !replies_app, !requested_app, !enqueued_app, !logged_app, Hr, Hg, He.
  split; [reflexivity |]. split; [reflexivity |].
  unfold queued. rewrite Hq, Hch.
  rewrite serve_b_run. cbv zeta. triple. rewrite offer_msg_run. triple.
  rewrite !logged_app, Hch.
  unfold Chan.offer, Chan.send.
  destruct (length (Chan.buf (msgChan w)) <? Chan.cap (msgChan w))%nat;
    cbn [fst snd Chan.buf];
    destruct (write_ok e);
    destruct (snd (lookup_outcome Decode (geo_http e) (IP_String from)));
    repeat split.
Qed.

(** *** The theorems at sample inputs *)


Lemma replies_to_replies_witness :
  let e := Sample.turn (ReadOk (makeNTPResponse Sample.clock) Sample.client) in
  pool_ok init
  /\ read e = ReadOk (makeNTPResponse Sample.clock) Sample.client
  /\ replies (events_of (Part001b.receive Sample.no_decode e init)) = []
  /\ replies (events_of (MainGo.receive e init))
     = [(makeNTPResponse Sample.clock, Sample.client)].
Proof.
  cbv zeta.
  assert (Hok : pool_ok init) by (split; [apply NoDup_nil_2 | apply Forall_nil_2]).
  split; [exact Hok |]. split; [reflexivity |].
  destruct (replies_to_replies Sample.no_decode
              (Sample.turn (ReadOk (makeNTPResponse Sample.clock) Sample.client))
              init Sample.clock Sample.client Hok eq_refl)
    as (_ & _ & Hb & _ & Hm).
  split; [exact Hb | exact Hm].
Defined.

Lemma full_queue_drops_alert_only_witness :
  let e := Sample.turn (ReadOk Sample.request Sample.client) in
  let full := Sample.waiting (replicate 100 "m"%string) in
  pool_ok full
  /\ read e = ReadOk Sample.request Sample.client
  /\ well_formed (read e) = true
  /\ replies (events_of (Part001b.receive Sample.no_decode e full))
     = [(makeNTPResponse Sample.clock, Sample.client)]
  /\ enqueued (events_of (Part001b.receive Sample.no_decode e full)) = [].
Proof.
  cbv zeta.
  assert (Hok : pool_ok (Sample.waiting (replicate 100 "m"%string)))
    by (split; [apply NoDup_nil_2 | apply Forall_nil_2]).
  split; [exact Hok |]. split; [reflexivity |]. split; [reflexivity |].
  pose proof (full_queue_drops_alert_only Sample.no_decode
                (Sample.turn (ReadOk Sample.request Sample.client))
                (Sample.waiting (replicate 100 "m"%string))
                Sample.request Sample.client Hok eq_refl eq_refl) as H.
  cbv zeta in H. destruct H as (Hr & _ & H).
  split; [exact Hr |].
  change (length (queued (Sample.waiting (replicate 100 "m"%string)))
            <? Chan.cap (msgChan (Sample.waiting (replicate 100 "m"%string))))%nat
    with false in H.
  cbv iota in H. apply H.
Defined.

End ListenerFacts.

(** ** More on the codec; the socket *)

Module CodecMore.
Import GoInt GoIntFacts Codec CodecFacts Trace.

Lemma makeNTPResponse_fields a b :
  makeNTPResponse a = makeNTPResponse b <-> seconds a = seconds b /\ fraction a = fraction b.
Proof.
  split.
  - intros H. split.
    + rewrite <- (seconds_field_response a), <- (seconds_field_response b), H. reflexivity.
    + rewrite <- (fraction_field_response a), <- (fraction_field_response b), H. reflexivity.
  - intros [Hs Hf]. rewrite !makeNTPResponse_unfold, Hs, Hf. reflexivity.
Qed.

(** X12: for clock readings with [Nanosecond()] in range, two
    readings give the same reply exactly when their Unix seconds differ
    by a multiple of 2^32 and they fall in the same microsecond of the
    second. *)
Theorem same_reply_same_microsecond (a b : Time) :
  0 <= Nanosecond a <= 999999999 -> 0 <= Nanosecond b <= 999999999 ->
  (makeNTPResponse a = makeNTPResponse b <->
   (Unix a - Unix b) mod 2 ^ 32 = 0 /\ Nanosecond a / 1000 = Nanosecond b / 1000).
Proof.
  intros Ha Hb. rewrite makeNTPResponse_fields, !seconds_mod.
  destruct (fraction_small a Ha) as [-> _]. destruct (fraction_small b Hb) as [-> _].
  assert ((Unix a + 2208988800) mod 2 ^ 32 = (Unix b + 2208988800) mod 2 ^ 32
          <-> (Unix a - Unix b) mod 2 ^ 32 = 0) as ->; [| reflexivity].
  change (2 ^ 32) with 4294967296. split; intros H; Z.div_mod_to_equations; lia.
Qed.

Lemma same_reply_same_microsecond_witness :
  let a := {| Unix := 1793404800; Nanosecond := 123456001 |} in
  let b := {| Unix := 1793404800 + 2 ^ 32; Nanosecond := 123456999 |} in
  0 <= Nanosecond a <= 999999999 /\ 0 <= Nanosecond b <= 999999999
  /\ makeNTPResponse a = makeNTPResponse b.
Proof.
  cbv zeta. split; [cbn; lia |]. split; [cbn; lia |].
  apply (same_reply_same_microsecond
           {| Unix := 1793404800; Nanosecond := 123456001 |}
           {| Unix := 1793404800 + 2 ^ 32; Nanosecond := 123456999 |});
    [cbn; lia | cbn; lia |].
  split; reflexivity.
Defined.

(** X13: the fraction field holds a count of microseconds; read as
    the NTP format defines it (units of 2^-32 second) it stands for at
    most 232 microseconds, whatever the sub-second part of the clock
    reading. *)
Theorem fraction_read_as_ntp (now : Time) :
  0 <= Nanosecond now <= 999999999 ->
  ntp_fraction_micros (makeNTPResponse now)
  = Nanosecond now / 1000 * 1000000 / 2 ^ 32
  /\ 0 <= ntp_fraction_micros (makeNTPResponse now) <= 232.
Proof.
  intros Hn. unfold ntp_fraction_micros. rewrite fraction_field_response.
  destruct (fraction_small now Hn) as [E Hf]. rewrite E in Hf |- *.
  split; [reflexivity |].
  change (2 ^ 32) with 4294967296. Z.div_mod_to_equations. lia.
Qed.

Lemma fraction_read_as_ntp_witness :
  let now := {| Unix := 1793404800; Nanosecond := 999999999 |} in
  0 <= Nanosecond now <= 999999999
  /\ ntp_fraction_micros (makeNTPResponse now) = 232.
Proof.
  cbv zeta. split; [cbn; lia |].
  destruct (fraction_read_as_ntp {| Unix := 1793404800; Nanosecond := 999999999 |})
    as [E _]; [cbn; lia |].
  rewrite E. reflexivity.
Defined.

End CodecMore.

Module CloseFacts.
Import Net Sys Obs Codec Str Main Trace.
Import SysFacts Part001Facts MainGoFacts PoolFacts LoopFacts EscapeFacts DispatcherFacts MainFacts.

Lemma closes_app a b : closes (a ++ b) = (closes a + closes b)%nat.
Proof. unfold closes. rewrite omap_app, length_app. reflexivity. Qed.

Lemma offer_msg_closes msg w : closes (events_of (offer_msg msg w)) = 0%nat.
Proof.
  rewrite offer_msg_run. triple.
  destruct (snd (Chan.offer (msgChan w) msg)); reflexivity.
Qed.

Lemma receive_b_closes Decode e w :
  pool_ok w -> closes (events_of (Part001b.receive Decode e w)) = 0%nat.
Proof.
  intros Hok. unfold Part001b.receive.
  destruct (well_formed (read e)) eqn:Hwf.
  - destruct (read e) as [| payload from] eqn:Hrd; [discriminate |].
    rewrite <- Hrd in Hwf.
    destruct (receive_with_valid (Part001b.serve Decode) e w payload from Hok Hrd Hwf)
      as (p & buf & w2 & Hrun & _).
    rewrite Hrun, serve_b_run. cbv zeta. triple.
    rewrite !closes_app, offer_msg_closes.
    destruct (write_ok e);
      destruct (snd (lookup_outcome Decode (geo_http e) (IP_String from)));
      reflexivity.
  - destruct (receive_with_invalid (Part001b.serve Decode) e w Hok Hwf)
      as (p & buf & w2 & lvl & txt & Hrun & _).
    rewrite Hrun. reflexivity.
Qed.

Lemma receive_main_closes e w : closes (events_of (MainGo.receive e w)) = 0%nat.
Proof.
  rewrite receive_run. cbv zeta. rewrite Get_events.
  destruct (read e) as [| payload from].
  - rewrite Put_slice_run. reflexivity.
  - rewrite Put_slice_run. cbv zeta. triple.
    rewrite !closes_app, offer_msg_closes.
    destruct (0 <? length payload)%nat; destruct (write_ok e); reflexivity.
Qed.

Section Loop.
Variable turn : ListenerEnv -> M Phase.
Variable Inv : World -> Prop.
Hypothesis turn_run : forall e w, Inv w ->
  if ctx_done e then turn e w = (STOPPING, w, [EvLog Info "Остановка NTP сервера"])
  else value_of (turn e w) = RUNNING /\ Inv (world_of (turn e w))
       /\ closes (events_of (turn e w)) = 0%nat.
Hypothesis turn_phase : forall e w,
  value_of (turn e w) = if ctx_done e then STOPPING else RUNNING.

Lemma loop_closes script : forall w, Inv w ->
  let r := for_loop turn (emit EvClose) script w in
  if existsb ctx_done script then
    closes (events_of r) = 1%nat /\ last (events_of r) = Some EvClose
  else closes (events_of r) = 0%nat.
Proof.
  induction script as [| e script IH]; intros w Hw; cbv zeta; [reflexivity |].
  rewrite (for_loop_cons _ _ ctx_done turn_phase). cbv zeta.
  pose proof (turn_run e w Hw) as Ht. cbn [existsb].
  destruct (ctx_done e); cbn [orb].
  - rewrite Ht. triple. rewrite emit_run. triple. split; reflexivity.
  - destruct Ht as (_ & Hi & Hc). triple. specialize (IH _ Hi). cbv zeta in IH.
    rewrite closes_app, Hc.
    destruct (existsb ctx_done script); [| exact IH].
    destruct IH as [IH1 IH2]. split; [exact IH1 |].
    destruct (events_of (for_loop turn (emit EvClose) script (world_of (turn e w))))
      as [| ev evs] eqn:E; [discriminate |].
    rewrite last_app, IH2. reflexivity.
Qed.

End Loop.

Lemma turn_b_closes Decode e w :
  pool_ok w ->
  if ctx_done e then
    Part001b.startNTPServer_turn Decode e w
    = (STOPPING, w, [EvLog Info "Остановка NTP сервера"])
  else value_of (Part001b.startNTPServer_turn Decode e w) = RUNNING
       /\ pool_ok (world_of (Part001b.startNTPServer_turn Decode e w))
       /\ closes (events_of (Part001b.startNTPServer_turn Decode e w)) = 0%nat.
Proof.
  intros Hok. unfold Part001b.startNTPServer_turn. rewrite turn_with_run.
  destruct (ctx_done e); [reflexivity |]. triple.
  split; [reflexivity |].
  split; [apply receive_b_pool_ok, Hok | apply receive_b_closes, Hok].
Qed.

Lemma turn_main_closes e w :
  True ->
  if ctx_done e then
    MainGo.startNTPServer_turn e w = (STOPPING, w, [EvLog Info "Остановка NTP сервера"])
  else value_of (MainGo.startNTPServer_turn e w) = RUNNING /\ True
       /\ closes (events_of (MainGo.startNTPServer_turn e w)) = 0%nat.
Proof.
  intros _. rewrite main_go_turn_run.
  destruct (ctx_done e); [reflexivity |]. triple.
  split; [reflexivity |]. split; [exact I | apply receive_main_closes].
Qed.

(** X14: over any run from the initial world, the listeners of the
    second file of part_001 and of main.go close the socket once, as
    their last action, when a turn found the context cancelled, and not
    at all otherwise: no read error, malformed datagram, failed send,
    failed lookup or full queue closes it. *)
Theorem listener_closes_once Decode script :
  let rb := Part001b.startNTPServer Decode script init in
  let rm := MainGo.startNTPServer script init in
  if existsb ctx_done script then
    closes (events_of rb) = 1%nat /\ last (events_of rb) = Some EvClose
    /\ closes (events_of rm) = 1%nat /\ last (events_of rm) = Some EvClose
  else closes (events_of rb) = 0%nat /\ closes (events_of rm) = 0%nat.
Proof.
  cbv zeta.
  pose proof (loop_closes (Part001b.startNTPServer_turn Decode) pool_ok
                (turn_b_closes Decode) (turn_with_phase _) script init pool_ok_init) as Hb.
  pose proof (loop_closes MainGo.startNTPServer_turn (fun _ => True)
                turn_main_closes main_go_turn_phase script init I) as Hm.
  cbv zeta in Hb, Hm.
  unfold Part001b.startNTPServer, Part001a.loop_with, MainGo.startNTPServer.
  fold (Part001b.startNTPServer_turn Decode).
  destruct (existsb ctx_done script); [destruct Hb, Hm |]; repeat split; assumption.
Qed.

End CloseFacts.
